(** * Passthrough PCI device model (hypervisor/dm/vpci/pci_pt.c)

    A shallow embedding of the passthrough virtual PCI device of the
    hypervisor: the physical configuration port driver, the device
    life cycle (init / deinit), the configuration-space dispatcher and
    the BAR reprogram engine, followed by the properties of the
    specification that are settled on it.

    Unsigned C integers are values of [Z] and every wrap-around of the
    source is written out with [u8], [u16] and [u32].  The C code calls
    into the rest of the hypervisor (port I/O, EPT, IOMMU, logging);
    every such call is recorded, in program order, in a trace of
    [event]s, and what the callee answers is taken from a record of
    [collaborators] that sees the whole history of calls. *)

From Stdlib Require Import ZArith List Lia String Bool.
From stdpp Require Import base list.
Import ListNotations.
Local Open Scope Z_scope.

(** ** Machine integers *)

Definition u8 (x : Z) : Z := x mod 2 ^ 8.
Definition u16 (x : Z) : Z := x mod 2 ^ 16.
Definition u32 (x : Z) : Z := x mod 2 ^ 32.

(** ** Constants of the headers *)

(** The macros below belong to pci_priv.h and to the architecture
    headers, which are not under src/.  Their values are those of the PCI
    configuration space the spec describes (six 4-byte BAR registers; in
    a BAR, bit 0 is the memory-space indicator, 0 for memory, bits 1-2 the
    address width, 0 for 32 bits, and the base sits in the high bits). *)

(** Modelled from the spec: PCI_BAR_COUNT, "exactly 6 slots per device". *)
Definition PCI_BAR_COUNT : Z := 6.

(** Modelled from the spec: PCIR_BARS, the offset of the first of the six
    consecutive 4-byte BAR registers. *)
Definition PCIR_BARS : Z := 0x10.

(** Modelled from the spec: PCIR_BAR(x), the offset of BAR register [x]. *)
Definition PCIR_BAR (x : Z) : Z := PCIR_BARS + x * 4.

(** Modelled from the spec: PCIM_BAR_MEM_SPACE, bit 0 of a BAR, 0 for a
    memory BAR. *)
Definition PCIM_BAR_MEM_SPACE : Z := 0.

(** Modelled from the spec: PCIM_BAR_MEM_32, bits 1-2 of a BAR, 0 for a
    32-bit address. *)
Definition PCIM_BAR_MEM_32 : Z := 0.

(** Modelled from the spec: PCIM_BAR_MEM_BASE, the bits of a memory BAR
    that hold the base. *)
Definition PCIM_BAR_MEM_BASE : Z := 0xFFFFFFF0.

(** Modelled from the spec: PCI_BAR_BASE(val), the base field of a BAR
    register value. *)
Definition PCI_BAR_BASE (val : Z) : Z := Z.land val PCIM_BAR_MEM_BASE.

(** Modelled from the spec: PCI_BAR(base, type), the register value made
    of a base and the type bits. *)
Definition PCI_BAR (base type : Z) : Z := Z.lor base type.

(** Modelled from the spec: PCIR_COMMAND, the offset of the command
    register. *)
Definition PCIR_COMMAND : Z := 0x04.

(** Modelled from the spec: PCIM_CMD_MEMEN, the memory-space enable bit of
    the command register. *)
Definition PCIM_CMD_MEMEN : Z := 0x02.

(** Modelled from the spec: PCI_CFG_ENABLE, the enable bit of the address
    word. *)
Definition PCI_CFG_ENABLE : Z := 0x80000000.

(** Modelled from the spec: PCI_CONFIG_ADDR, the fixed address port. *)
Definition PCI_CONFIG_ADDR : Z := 0xCF8.

(** Modelled from the spec: PCI_CONFIG_DATA, the fixed data port. *)
Definition PCI_CONFIG_DATA : Z := 0xCFC.

(** Modelled from the spec: PCI_BUS(bdf), the bus number of the packed
    bus/device/function. *)
Definition PCI_BUS (bdf : Z) : Z := Z.land (Z.shiftr bdf 8) 0xFF.

(** Modelled from the spec: LOBYTE(w), here the device/function byte. *)
Definition LOBYTE (w : Z) : Z := Z.land w 0xFF.

(** Modelled from the spec: HVA2HPA(x), the physical address of a
    hypervisor pointer; the hypervisor maps its memory one to one. *)
Definition HVA2HPA (x : Z) : Z := x.

(** Modelled from the spec: EPT_RD, the read permission of a translation. *)
Definition EPT_RD : Z := Z.shiftl 1 0.

(** Modelled from the spec: EPT_WR, the write permission of a
    translation. *)
Definition EPT_WR : Z := Z.shiftl 1 1.

(** Modelled from the spec: EPT_UNCACHED, the uncached memory type of a
    translation. *)
Definition EPT_UNCACHED : Z := Z.shiftl 0 3.

(** Modelled from the spec: EINVAL, the error number behind the
    MisalignedAccess and InvalidBarType statuses. *)
Definition EINVAL : Z := 22.

(** ** Data *)

(** [struct pci_bar]: one BAR descriptor. *)
Record pci_bar := mk_pci_bar {
  bar_base : Z;
  bar_size : Z;
  bar_type : Z
}.

(** [struct pci_pdev]: the physical function, its packed bus/device/function
    and its BARs as discovered on the hardware. *)
Record pci_pdev := mk_pci_pdev {
  bdf : Z;
  pdev_bar : list pci_bar
}.

(** [struct pci_vdev]: the guest-visible [bar] table, the physical
    device, and the virtual configuration-space image [cfgdata] seen
    through its 32-bit view (dword [i] holds the bytes [4i .. 4i+3],
    little endian). *)
Record pci_vdev := mk_pci_vdev {
  bar : list pci_bar;
  pdev : pci_pdev;
  cfgdata : list Z
}.

(** The part of [struct vm] the device model touches; [iommu] and
    [nworld_eptp] are pointers, 0 is NULL. *)
Record vm := mk_vm {
  vm_id : Z;
  iommu : Z;
  nworld_eptp : Z
}.

(** Calls that leave this file, with their arguments and their result. *)
Inductive event :=
| EvSpinlockObtain
| EvSpinlockRelease
| EvPioWrite (val port width : Z)
| EvPioRead (port width val : Z)
| EvEptMrDel (eptp gpa size ret : Z)
| EvEptMrAdd (eptp hpa gpa size prot ret : Z)
| EvAllocPagingStruct (ret : Z)
| EvCreateIommuDomain (id hpa addr_width ret : Z)
| EvAssignIommuDevice (domain bus devfun ret : Z)
| EvUnassignIommuDevice (domain bus devfun ret : Z)
| EvPrErr (msg : string).

(** What the rest of the hypervisor answers to a call, given every call
    made so far. *)
Record collaborators := mk_collaborators {
  pio_read : list event -> Z -> Z -> Z;
  ept_mr_del : list event -> Z -> Z -> Z -> Z;
  ept_mr_add : list event -> Z -> Z -> Z -> Z -> Z -> Z;
  alloc_paging_struct : list event -> Z;
  create_iommu_domain : list event -> Z -> Z -> Z -> Z;
  assign_iommu_device : list event -> Z -> Z -> Z -> Z;
  unassign_iommu_device : list event -> Z -> Z -> Z -> Z
}.

(** The state the functions of the file run in: [vdev], the [vm] reached
    through [vdev->vpci->vm], and the calls made so far. *)
Record world := mk_world {
  w_vdev : pci_vdev;
  w_vm : vm;
  w_trace : list event
}.

Definition set_vdev (v : pci_vdev) (w : world) : world :=
  mk_world v (w_vm w) (w_trace w).
Definition set_vm (g : vm) (w : world) : world :=
  mk_world (w_vdev w) g (w_trace w).
Definition log (e : event) (w : world) : world :=
  mk_world (w_vdev w) (w_vm w) (w_trace w ++ [e]).

(** ** A state monad for the C statements *)

Definition M (A : Type) : Type := world -> A * world.

Definition ret {A} (a : A) : M A := fun w => (a, w).
Definition bind {A B} (m : M A) (k : A -> M B) : M B :=
  fun w => let (a, w') := m w in k a w'.

Declare Scope pt_scope.
Delimit Scope pt_scope with pt.
Notation "x <- m ;; k" := (bind m (fun x => k))
  (at level 100, m at next level, right associativity) : pt_scope.
Notation "m ;;; k" := (bind m (fun _ => k))
  (at level 100, right associativity) : pt_scope.
Local Open Scope pt_scope.

Definition get_vdev : M pci_vdev := fun w => (w_vdev w, w).
Definition put_vdev (v : pci_vdev) : M unit := fun w => (tt, set_vdev v w).
Definition get_vm : M vm := fun w => (w_vm w, w).
Definition put_vm (g : vm) : M unit := fun w => (tt, set_vm g w).
Definition emit (e : event) : M unit := fun w => (tt, log e w).
Definition history : M (list event) := fun w => (w_trace w, w).

(** ** Array accesses *)

Definition null_bar : pci_bar := mk_pci_bar 0 0 0.

(** [bars[idx]].  The tables have [PCI_BAR_COUNT] entries and the file
    only indexes them below that; outside, C gives no meaning to the
    access and the model answers [null_bar]. *)
Definition bar_at (bars : list pci_bar) (idx : Z) : pci_bar :=
  default null_bar (bars !! Z.to_nat idx).

(** [vdev->bar[idx].base = b]. *)
Definition set_bar_base (vdev : pci_vdev) (idx b : Z) : pci_vdev :=
  let old := bar_at (bar vdev) idx in
  mk_pci_vdev
    (<[Z.to_nat idx := mk_pci_bar b (bar_size old) (bar_type old)]> (bar vdev))
    (pdev vdev) (cfgdata vdev).

(** ** Virtual configuration-space image *)

(** The accessors of the virtual configuration space belong to the
    generic virtual PCI code, which is not under src/.  The spec has the
    BAR register values "cached in a shadow configuration-space byte
    image" and BAR reads "return the cached virtual value": the image is
    one array seen as bytes, 16-bit words or dwords (little endian); a
    32-bit write stores the dword that contains the offset, and a read of
    1, 2 or 4 bytes picks the byte, word or dword that contains it. *)

(** Modelled from the spec: the dword [i] of the image, [data_32[i]]; the
    image has 64 of them and the file stays within the BAR registers. *)
Definition cfg_dword (vdev : pci_vdev) (i : Z) : Z :=
  default 0 (cfgdata vdev !! Z.to_nat i).

(** Modelled from the spec: pci_vdev_read_cfg_u8, the byte at [offset]. *)
Definition pci_vdev_read_cfg_u8 (vdev : pci_vdev) (offset : Z) : Z :=
  Z.land (Z.shiftr (cfg_dword vdev (Z.shiftr offset 2))
                   (8 * Z.land offset 3)) 0xFF.

(** Modelled from the spec: pci_vdev_read_cfg_u16, the 16-bit word that
    contains [offset]. *)
Definition pci_vdev_read_cfg_u16 (vdev : pci_vdev) (offset : Z) : Z :=
  let i := Z.shiftr offset 1 in
  Z.land (Z.shiftr (cfg_dword vdev (Z.shiftr i 1)) (16 * Z.land i 1)) 0xFFFF.

(** Modelled from the spec: pci_vdev_read_cfg_u32, the dword that contains
    [offset]. *)
Definition pci_vdev_read_cfg_u32 (vdev : pci_vdev) (offset : Z) : Z :=
  cfg_dword vdev (Z.shiftr offset 2).

(** Modelled from the spec: pci_vdev_read_cfg, the read of the cached
    virtual value at a width of 1, 2 or 4 bytes. *)
Definition pci_vdev_read_cfg (vdev : pci_vdev) (offset bytes : Z) : Z :=
  if bytes =? 1 then pci_vdev_read_cfg_u8 vdev offset
  else if bytes =? 2 then pci_vdev_read_cfg_u16 vdev offset
  else pci_vdev_read_cfg_u32 vdev offset.

(** Modelled from the spec: pci_vdev_write_cfg_u32, the store of a 32-bit
    register value into the image. *)
Definition pci_vdev_write_cfg_u32 (vdev : pci_vdev) (offset val : Z)
  : pci_vdev :=
  mk_pci_vdev (bar vdev) (pdev vdev)
    (<[Z.to_nat (Z.shiftr offset 2) := u32 val]> (cfgdata vdev)).

(** ** The functions of pci_pt.c *)

Section PassThrough.

Variable env : collaborators.

(** *** Calls into the rest of the hypervisor *)

Definition spinlock_obtain : M unit := emit EvSpinlockObtain.
Definition spinlock_release : M unit := emit EvSpinlockRelease.

Definition pio_write (v addr sz : Z) : M unit := emit (EvPioWrite v addr sz).
Definition pio_write8 (v addr : Z) : M unit := emit (EvPioWrite (u8 v) addr 1).
Definition pio_write16 (v addr : Z) : M unit :=
  emit (EvPioWrite (u16 v) addr 2).
Definition pio_write32 (v addr : Z) : M unit :=
  emit (EvPioWrite (u32 v) addr 4).

Definition pio_read8 (addr : Z) : M Z :=
  h <- history ;;
  let v := u8 (pio_read env h addr 1) in
  emit (EvPioRead addr 1 v) ;;; ret v.
Definition pio_read16 (addr : Z) : M Z :=
  h <- history ;;
  let v := u16 (pio_read env h addr 2) in
  emit (EvPioRead addr 2 v) ;;; ret v.
Definition pio_read32 (addr : Z) : M Z :=
  h <- history ;;
  let v := u32 (pio_read env h addr 4) in
  emit (EvPioRead addr 4 v) ;;; ret v.

Definition call_ept_mr_del (eptp gpa sz : Z) : M Z :=
  h <- history ;;
  let r := ept_mr_del env h eptp gpa sz in
  emit (EvEptMrDel eptp gpa sz r) ;;; ret r.

Definition call_ept_mr_add (eptp hpa gpa sz prot : Z) : M Z :=
  h <- history ;;
  let r := ept_mr_add env h eptp hpa gpa sz prot in
  emit (EvEptMrAdd eptp hpa gpa sz prot r) ;;; ret r.

Definition call_alloc_paging_struct : M Z :=
  h <- history ;;
  let r := alloc_paging_struct env h in
  emit (EvAllocPagingStruct r) ;;; ret r.

Definition call_create_iommu_domain (id hpa aw : Z) : M Z :=
  h <- history ;;
  let r := create_iommu_domain env h id hpa aw in
  emit (EvCreateIommuDomain id hpa aw r) ;;; ret r.

Definition call_assign_iommu_device (dom bus devfun : Z) : M Z :=
  h <- history ;;
  let r := assign_iommu_device env h dom bus devfun in
  emit (EvAssignIommuDevice dom bus devfun r) ;;; ret r.

Definition call_unassign_iommu_device (dom bus devfun : Z) : M Z :=
  h <- history ;;
  let r := unassign_iommu_device env h dom bus devfun in
  emit (EvUnassignIommuDevice dom bus devfun r) ;;; ret r.

Definition pr_err (msg : string) : M unit := emit (EvPrErr msg).

(** *** Physical configuration port driver *)

Definition pci_pdev_calc_address (bdf offset : Z) : Z :=
  let addr := bdf in
  let addr := u32 (Z.shiftl addr 8) in
  Z.lor addr (Z.lor offset PCI_CFG_ENABLE).

Definition pci_pdev_read_cfg (pd : pci_pdev) (offset bytes : Z) : M Z :=
  spinlock_obtain ;;;
  let addr := pci_pdev_calc_address (bdf pd) offset in
  pio_write addr PCI_CONFIG_ADDR 4 ;;;
  val <- (if bytes =? 1 then pio_read8 (PCI_CONFIG_DATA + Z.land offset 3)
          else if bytes =? 2 then pio_read16 (PCI_CONFIG_DATA + Z.land offset 2)
          else pio_read32 PCI_CONFIG_DATA) ;;
  spinlock_release ;;;
  ret val.

Definition pci_pdev_write_cfg (pd : pci_pdev) (offset bytes val : Z)
  : M unit :=
  spinlock_obtain ;;;
  let addr := pci_pdev_calc_address (bdf pd) offset in
  pio_write addr PCI_CONFIG_ADDR 4 ;;;
  (if bytes =? 1 then pio_write8 val (PCI_CONFIG_DATA + Z.land offset 3)
   else if bytes =? 2 then pio_write16 val (PCI_CONFIG_DATA + Z.land offset 2)
   else pio_write32 val PCI_CONFIG_DATA) ;;;
  spinlock_release.

(** *** Device life cycle *)

(** The [for] loop of [vdev_pt_init_validate], from [idx] on, with the
    number of slots still to visit. *)
Fixpoint vdev_pt_init_validate_from (vdev : pci_vdev) (idx : Z) (left : nat)
  : Z :=
  match left with
  | O => 0
  | S left' =>
      if negb (bar_type (bar_at (bar vdev) idx) =? PCIM_BAR_MEM_32)
      then - EINVAL
      else vdev_pt_init_validate_from vdev (idx + 1) left'
  end.

Definition vdev_pt_init_validate (vdev : pci_vdev) : Z :=
  vdev_pt_init_validate_from vdev 0 (Z.to_nat PCI_BAR_COUNT).

(** The [for] loop of [vdev_pt_init_bar_registers]. *)
Fixpoint vdev_pt_init_bar_registers_from (vdev : pci_vdev) (idx : Z)
  (left : nat) : pci_vdev :=
  match left with
  | O => vdev
  | S left' =>
      let b := bar_at (bar vdev) idx in
      vdev_pt_init_bar_registers_from
        (pci_vdev_write_cfg_u32 vdev (PCIR_BAR idx)
           (PCI_BAR (bar_base b) (bar_type b)))
        (idx + 1) left'
  end.

Definition vdev_pt_init_bar_registers : M unit :=
  vdev <- get_vdev ;;
  put_vdev (vdev_pt_init_bar_registers_from vdev 0 (Z.to_nat PCI_BAR_COUNT)).

Definition vdev_pt_init : M Z :=
  vdev <- get_vdev ;;
  let r := vdev_pt_init_validate vdev in
  if negb (r =? 0) then
    pr_err "virtual bar can only be of type PCIM_BAR_MEM_32!" ;;;
    ret r
  else
    g <- get_vm ;;
    (if iommu g =? 0 then
       (if nworld_eptp g =? 0 then
          p <- call_alloc_paging_struct ;;
          put_vm (mk_vm (vm_id g) (iommu g) p)
        else ret tt) ;;;
       g <- get_vm ;;
       d <- call_create_iommu_domain (vm_id g) (HVA2HPA (nworld_eptp g)) 48 ;;
       put_vm (mk_vm (vm_id g) d (nworld_eptp g))
     else ret tt) ;;;
    g <- get_vm ;;
    r <- call_assign_iommu_device (iommu g)
           (PCI_BUS (bdf (pdev vdev))) (LOBYTE (bdf (pdev vdev))) ;;
    vdev_pt_init_bar_registers ;;;
    ret r.

Definition vdev_pt_deinit : M Z :=
  vdev <- get_vdev ;;
  g <- get_vm ;;
  call_unassign_iommu_device (iommu g)
    (PCI_BUS (bdf (pdev vdev))) (LOBYTE (bdf (pdev vdev))).

(** *** Configuration-space dispatcher and BAR reprogram engine *)

Definition bar_access (coff : Z) : bool :=
  (PCIR_BAR 0 <=? coff) && (coff <? PCIR_BAR PCI_BAR_COUNT).

(** The alignment test [(offset & (bytes - 1)) != 0U]. *)
Definition misaligned (offset bytes : Z) : bool :=
  negb (Z.land offset (u32 (bytes - 1)) =? 0).

(** Returns the value stored through [*val], then the status. *)
Definition vdev_pt_cfgread (offset bytes : Z) : M (Z * Z) :=
  if misaligned offset bytes then ret (0xffffffff, - EINVAL)
  else if bar_access offset then
    vdev <- get_vdev ;;
    ret (pci_vdev_read_cfg vdev offset bytes, 0)
  else
    vdev <- get_vdev ;;
    v <- pci_pdev_read_cfg (pdev vdev) offset bytes ;;
    ret (v, 0).

Definition vdev_pt_remap_bar (idx new_base : Z) : M Z :=
  vdev <- get_vdev ;;
  g <- get_vm ;;
  error <- (if negb (bar_base (bar_at (bar vdev) idx) =? 0) then
              call_ept_mr_del (nworld_eptp g)
                (bar_base (bar_at (bar vdev) idx))
                (bar_size (bar_at (bar vdev) idx))
            else ret 0) ;;
  if negb (error =? 0) then ret error
  else if negb (new_base =? 0) then
    call_ept_mr_add (nworld_eptp g)
      (bar_base (bar_at (pdev_bar (pdev vdev)) idx))
      new_base
      (bar_size (bar_at (bar vdev) idx))
      (Z.lor (Z.lor EPT_WR EPT_RD) EPT_UNCACHED)
  else ret error.

Definition memen : M Z :=
  vdev <- get_vdev ;;
  c <- pci_pdev_read_cfg (pdev vdev) PCIR_COMMAND 2 ;;
  ret (Z.land c PCIM_CMD_MEMEN).

Definition vdev_pt_cfgwrite_bar (offset bytes new_bar_uos : Z) : M unit :=
  vdev <- get_vdev ;;
  let idx := Z.shiftr (u32 (offset - PCIR_BAR 0)) 2 in
  let mask := u32 (Z.lnot (bar_size (bar_at (bar vdev) idx) - 1)) in
  let bar_update_normal := negb (new_bar_uos =? u32 (Z.lnot 0)) in
  let new_bar := Z.land new_bar_uos mask in
  let new_bar := Z.lor new_bar (Z.lor PCIM_BAR_MEM_SPACE PCIM_BAR_MEM_32) in
  if PCI_BAR_BASE new_bar =? bar_base (bar_at (bar vdev) idx) then ret tt
  else
    m <- memen ;;
    let do_map := negb (m =? 0) && bar_update_normal in
    (if do_map then
       error <- vdev_pt_remap_bar idx (PCI_BAR_BASE new_bar) ;;
       if negb (error =? 0) then pr_err "vdev_pt_remap_bar failed: %d"
       else ret tt
     else ret tt) ;;;
    vdev <- get_vdev ;;
    put_vdev (pci_vdev_write_cfg_u32 vdev offset new_bar) ;;;
    vdev <- get_vdev ;;
    put_vdev (set_bar_base vdev idx (PCI_BAR_BASE new_bar)).

Definition vdev_pt_cfgwrite (offset bytes val : Z) : M Z :=
  if misaligned offset bytes then ret (- EINVAL)
  else if bar_access offset then
    vdev_pt_cfgwrite_bar offset bytes val ;;; ret 0
  else
    vdev <- get_vdev ;;
    pci_pdev_write_cfg (pdev vdev) offset bytes val ;;; ret 0.

End PassThrough.

(** ** Observations on a run *)

(** The calls made by [m] when it runs from [w], in program order. *)
Definition calls_of {A} (m : M A) (w : world) : list event :=
  drop (length (w_trace w)) (w_trace (snd (m w))).

Definition is_translation_call (e : event) : bool :=
  match e with
  | EvEptMrDel _ _ _ _ | EvEptMrAdd _ _ _ _ _ _ => true
  | _ => false
  end.

Definition is_port_driver_call (e : event) : bool :=
  match e with
  | EvSpinlockObtain | EvSpinlockRelease
  | EvPioWrite _ _ _ | EvPioRead _ _ _ => true
  | _ => false
  end.

Definition is_iommu_call (e : event) : bool :=
  match e with
  | EvAllocPagingStruct _ | EvCreateIommuDomain _ _ _ _
  | EvAssignIommuDevice _ _ _ _ | EvUnassignIommuDevice _ _ _ _ => true
  | _ => false
  end.

Definition is_attach_call (e : event) : bool :=
  match e with
  | EvAssignIommuDevice _ _ _ _ => true
  | _ => false
  end.

Definition translation_calls (l : list event) : list event :=
  List.filter is_translation_call l.
Definition port_driver_calls (l : list event) : list event :=
  List.filter is_port_driver_call l.
Definition iommu_calls (l : list event) : list event :=
  List.filter is_iommu_call l.
Definition attach_calls (l : list event) : list event :=
  List.filter is_attach_call l.

(** The BAR index and the register value the engine derives from a write. *)
Definition bar_index (offset : Z) : Z :=
  Z.shiftr (u32 (offset - PCIR_BAR 0)) 2.
Definition bar_mask (sz : Z) : Z := u32 (Z.lnot (sz - 1)).
Definition candidate_bar (sz val : Z) : Z :=
  Z.lor (Z.land val (bar_mask sz)) (Z.lor PCIM_BAR_MEM_SPACE PCIM_BAR_MEM_32).
Definition decoded_base (sz val : Z) : Z := PCI_BAR_BASE (candidate_bar sz val).

(** The guest's memory-space enable, as [memen] reads it from [w]. *)
Definition memen_set (env : collaborators) (w : world) : Prop :=
  fst (memen env w) <> 0.

(** The tables have their C sizes: six BARs on both sides, 64 dwords of
    configuration space. *)
Definition wf_vdev (vdev : pci_vdev) : Prop :=
  length (bar vdev) = Z.to_nat PCI_BAR_COUNT /\
  length (pdev_bar (pdev vdev)) = Z.to_nat PCI_BAR_COUNT /\
  length (cfgdata vdev) = 64%nat.

(** ** Sample devices and collaborators *)

Definition sample_env (cmd del_ret add_ret assign_ret : Z) : collaborators :=
  mk_collaborators
    (fun _ _ _ => cmd)
    (fun _ _ _ _ => del_ret)
    (fun _ _ _ _ _ _ => add_ret)
    (fun _ => 0x1000)
    (fun _ _ _ _ => 0x2000)
    (fun _ _ _ _ => assign_ret)
    (fun _ _ _ _ => 0).

Definition sample_bars (base0 type5 : Z) : list pci_bar :=
  [ mk_pci_bar base0 0x10000 PCIM_BAR_MEM_32;
    mk_pci_bar 0 0x1000 PCIM_BAR_MEM_32;
    mk_pci_bar 0 0x1000 PCIM_BAR_MEM_32;
    mk_pci_bar 0 0x100 PCIM_BAR_MEM_32;
    mk_pci_bar 0 0x100 PCIM_BAR_MEM_32;
    mk_pci_bar 0 0x100 type5 ].

Definition sample_pdev : pci_pdev :=
  mk_pci_pdev 0x0310 (sample_bars 0xF0000000 PCIM_BAR_MEM_32).

Definition sample_world (base0 type5 : Z) : world :=
  mk_world
    (mk_pci_vdev (sample_bars base0 type5) sample_pdev (replicate 64 0))
    (mk_vm 1 0 0)
    [].

(** [w] after the calls [d], with the device and the vm untouched. *)
Definition world_after (w : world) (d : list event) : world :=
  mk_world (w_vdev w) (w_vm w) (w_trace w ++ d).

(** The device once the engine has committed the write of [val] at
    [offset]: the register value in the image, the base in the table. *)
Definition committed_vdev (vdev : pci_vdev) (offset val : Z) : pci_vdev :=
  let idx := bar_index offset in
  let sz := bar_size (bar_at (bar vdev) idx) in
  set_bar_base (pci_vdev_write_cfg_u32 vdev offset (candidate_bar sz val))
    idx (decoded_base sz val).

(** ** Statements of the specification that the code does not meet *)

(** Remap ordering as the spec has it: on a mapped BAR with memory
    decoding enabled, a non-probe write that decodes to another base makes
    exactly one removal followed by exactly one addition, and commits the
    new base, whatever the two calls answer. *)
Definition remap_ordering_claim
  (env : collaborators) (w : world) (offset bytes val : Z) : Prop :=
  let idx := bar_index offset in
  let b := bar_at (bar (w_vdev w)) idx in
  let phys := bar_at (pdev_bar (pdev (w_vdev w))) idx in
  let B_new := decoded_base (bar_size b) val in
  let eptp := nworld_eptp (w_vm w) in
  wf_vdev (w_vdev w) ->
  misaligned offset bytes = false -> bar_access offset = true ->
  bar_base b <> 0 -> memen_set env w -> val <> 0xFFFFFFFF ->
  B_new <> bar_base b ->
  (exists r_del r_add,
     translation_calls (calls_of (vdev_pt_cfgwrite env offset bytes val) w)
     = [EvEptMrDel eptp (bar_base b) (bar_size b) r_del;
        EvEptMrAdd eptp (bar_base phys) B_new (bar_size b)
          (Z.lor (Z.lor EPT_WR EPT_RD) EPT_UNCACHED) r_add]) /\
  bar_base (bar_at (bar (w_vdev (snd (vdev_pt_cfgwrite env offset bytes val w))))
              idx) = B_new.

(** Probe writes as the spec has them: writing 0xFFFFFFFF to a BAR
    register keeps the descriptor's base and makes no translation call. *)
Definition probe_write_claim
  (env : collaborators) (w : world) (offset bytes : Z) : Prop :=
  let idx := bar_index offset in
  wf_vdev (w_vdev w) ->
  misaligned offset bytes = false -> bar_access offset = true ->
  bar_base (bar_at (bar (w_vdev (snd (vdev_pt_cfgwrite env offset bytes
                                         0xFFFFFFFF w)))) idx)
  = bar_base (bar_at (bar (w_vdev w)) idx) /\
  translation_calls (calls_of (vdev_pt_cfgwrite env offset bytes 0xFFFFFFFF) w)
  = [].

(** [w] with another BAR table and another configuration-space image. *)
Definition with_shadow (w : world) (bars : list pci_bar) (cfg : list Z)
  : world :=
  mk_world (mk_pci_vdev bars (pdev (w_vdev w)) cfg) (w_vm w) (w_trace w).

(** The shadow state is neither read nor written by [m] from [w]: the
    table and the image come out as they went in, and with any other
    table and image [m] answers the same and makes the same calls. *)
Definition shadow_untouched {A} (m : M A) (w : world) : Prop :=
  bar (w_vdev (snd (m w))) = bar (w_vdev w) /\
  cfgdata (w_vdev (snd (m w))) = cfgdata (w_vdev w) /\
  forall bars cfg,
    fst (m (with_shadow w bars cfg)) = fst (m w) /\
    calls_of m (with_shadow w bars cfg) = calls_of m w /\
    bar (w_vdev (snd (m (with_shadow w bars cfg)))) = bars /\
    cfgdata (w_vdev (snd (m (with_shadow w bars cfg)))) = cfg.

(** The routing split as the spec has it. *)
Definition routing_split_claim
  (env : collaborators) (w : world) (offset bytes val : Z) : Prop :=
  misaligned offset bytes = false ->
  (bar_access offset = true ->
   port_driver_calls (calls_of (vdev_pt_cfgread env offset bytes) w) = [] /\
   port_driver_calls (calls_of (vdev_pt_cfgwrite env offset bytes val) w)
   = []) /\
  (bar_access offset = false ->
   shadow_untouched (vdev_pt_cfgread env offset bytes) w /\
   shadow_untouched (vdev_pt_cfgwrite env offset bytes val) w).

(** A failed attachment as the spec has it: the error of the attach call
    is the result of init and the BAR registers of the image are left as
    they were. *)
Definition attach_failure_claim (env : collaborators) (w : world) : Prop :=
  forall dom bus devfun e,
    attach_calls (calls_of (vdev_pt_init env) w)
    = [EvAssignIommuDevice dom bus devfun e] ->
    e <> 0 ->
    fst (vdev_pt_init env w) = e /\
    forall i, 0 <= i < PCI_BAR_COUNT ->
      pci_vdev_read_cfg_u32 (w_vdev (snd (vdev_pt_init env w))) (PCIR_BAR i)
      = pci_vdev_read_cfg_u32 (w_vdev w) (PCIR_BAR i).

(** ** Sequences of configuration accesses *)

Inductive cfg_op :=
| CfgRead (offset bytes : Z)
| CfgWrite (offset bytes val : Z).

Definition run_op (env : collaborators) (op : cfg_op) : M unit :=
  match op with
  | CfgRead offset bytes =>
      bind (vdev_pt_cfgread env offset bytes) (fun _ => ret tt)
  | CfgWrite offset bytes val =>
      bind (vdev_pt_cfgwrite env offset bytes val) (fun _ => ret tt)
  end.

Fixpoint run_ops (env : collaborators) (ops : list cfg_op) : M unit :=
  match ops with
  | [] => ret tt
  | op :: rest => bind (run_op env op) (fun _ => run_ops env rest)
  end.

(** The invariant of a BAR descriptor: the size is a power of two and the
    base is a multiple of it (0 included). *)
Definition bar_ok (b : pci_bar) : Prop :=
  (exists k, 0 <= k /\ bar_size b = 2 ^ k) /\ (bar_size b | bar_base b).

(** ** Further observations *)

(** A translation call that answered an error. *)
Definition call_failed (e : event) : bool :=
  match e with
  | EvEptMrDel _ _ _ r | EvEptMrAdd _ _ _ _ _ r => negb (r =? 0)
  | _ => false
  end.

Definition is_pr_err (e : event) : bool :=
  match e with
  | EvPrErr _ => true
  | _ => false
  end.

(** The answer of a translation call. *)
Definition call_ret (e : event) : Z :=
  match e with
  | EvEptMrDel _ _ _ r | EvEptMrAdd _ _ _ _ _ r => r
  | _ => 0
  end.

(** The lock discipline of the port pair, checked along a list of calls:
    [held] says whether the lock is taken.  Port I/O needs the lock, every
    other call is made without it, the lock is never taken twice nor
    released when free.  The result is the final state of the lock, or
    [None] at the first violation. *)
Fixpoint locked_io (held : bool) (l : list event) : option bool :=
  match l with
  | [] => Some held
  | EvSpinlockObtain :: rest => if held then None else locked_io true rest
  | EvSpinlockRelease :: rest => if held then locked_io false rest else None
  | EvPioWrite _ _ _ :: rest | EvPioRead _ _ _ :: rest =>
      if held then locked_io true rest else None
  | _ :: rest => if held then None else locked_io false rest
  end.

(** The descriptor of every BAR agrees with its register in the image:
    the base is the base field of the register value. *)
Definition shadow_coherent (vdev : pci_vdev) : Prop :=
  forall i, 0 <= i < PCI_BAR_COUNT ->
    PCI_BAR_BASE (pci_vdev_read_cfg_u32 vdev (PCIR_BAR i))
    = bar_base (bar_at (bar vdev) i).

(** The width the driver really uses for a requested width. *)
Definition port_width (bytes : Z) : Z :=
  if bytes =? 1 then 1 else if bytes =? 2 then 2 else 4.

(** The data port the driver uses for an offset and a requested width. *)
Definition data_port (offset bytes : Z) : Z :=
  if bytes =? 1 then PCI_CONFIG_DATA + Z.land offset 3
  else if bytes =? 2 then PCI_CONFIG_DATA + Z.land offset 2
  else PCI_CONFIG_DATA.

(** The four entry points of [pci_ops_vdev_pt] and a sequence of calls
    through them. *)
Inductive pt_op :=
| PtInit
| PtDeinit
| PtCfgwrite (offset bytes val : Z)
| PtCfgread (offset bytes : Z).

Definition run_pt_op (env : collaborators) (op : pt_op) : M Z :=
  match op with
  | PtInit => vdev_pt_init env
  | PtDeinit => vdev_pt_deinit env
  | PtCfgwrite offset bytes val => vdev_pt_cfgwrite env offset bytes val
  | PtCfgread offset bytes =>
      bind (vdev_pt_cfgread env offset bytes) (fun r => ret (snd r))
  end.

Fixpoint run_pt_ops (env : collaborators) (ops : list pt_op) : M unit :=
  match ops with
  | [] => ret tt
  | op :: rest => bind (run_pt_op env op) (fun _ => run_pt_ops env rest)
  end.

(** A device record whose slots 1 to 4 are empty (size 0) and whose last
    slot has size 0x800; all six are MEM32. *)
Definition sample_sparse_world : world :=
  mk_world
    (mk_pci_vdev
       [ mk_pci_bar 0 0x10000 PCIM_BAR_MEM_32;
         mk_pci_bar 0 0 PCIM_BAR_MEM_32;
         mk_pci_bar 0 0 PCIM_BAR_MEM_32;
         mk_pci_bar 0 0 PCIM_BAR_MEM_32;
         mk_pci_bar 0 0 PCIM_BAR_MEM_32;
         mk_pci_bar 0 0x800 PCIM_BAR_MEM_32 ]
       sample_pdev (replicate 64 0))
    (mk_vm 1 0 0)
    [].

(** ** Basic facts *)

Lemma calls_of_app {A} (m : M A) (w : world) (d : list event) :
  w_trace (snd (m w)) = w_trace w ++ d -> calls_of m w = d.
Proof.
  intros H. unfold calls_of. rewrite H. apply drop_app_length.
Qed.

Lemma calls_of_same {A} (m : M A) (w : world) :
  w_trace (snd (m w)) = w_trace w -> calls_of m w = [].
Proof.
  intros H. apply calls_of_app. now rewrite app_nil_r.
Qed.

Lemma land_low_bits (a n : Z) :
  0 <= n -> Z.land a (2 ^ n - 1) = a mod 2 ^ n.
Proof.
  intros Hn. rewrite <- Z.land_ones by exact Hn.
  f_equal. rewrite Z.ones_equiv. lia.
Qed.

Lemma misaligned_spec (offset bytes : Z) :
  bytes = 1 \/ bytes = 2 \/ bytes = 4 ->
  misaligned offset bytes = negb (offset mod bytes =? 0).
Proof.
  unfold misaligned, u32.
  intros [-> | [-> | ->]]; f_equal; f_equal.
  - rewrite Z.mod_1_r. apply Z.land_0_r.
  - apply (land_low_bits offset 1). lia.
  - apply (land_low_bits offset 2). lia.
Qed.

Lemma validate_from_bad (vdev : pci_vdev) (left : nat) :
  forall idx i,
    idx <= i < idx + Z.of_nat left ->
    bar_type (bar_at (bar vdev) i) <> PCIM_BAR_MEM_32 ->
    vdev_pt_init_validate_from vdev idx left = - EINVAL.
Proof.
  induction left as [| n IH]; intros idx i Hi Hbad.
  - lia.
  - cbn [vdev_pt_init_validate_from].
    destruct (bar_type (bar_at (bar vdev) idx) =? PCIM_BAR_MEM_32) eqn:E;
      cbn [negb]; [| reflexivity].
    apply Z.eqb_eq in E.
    apply (IH (idx + 1) i); [| exact Hbad].
    assert (i <> idx) by (intros ->; contradiction). lia.
Qed.

Lemma validate_from_good (vdev : pci_vdev) (left : nat) :
  forall idx,
    (forall i, idx <= i < idx + Z.of_nat left ->
               bar_type (bar_at (bar vdev) i) = PCIM_BAR_MEM_32) ->
    vdev_pt_init_validate_from vdev idx left = 0.
Proof.
  induction left as [| n IH]; intros idx Hall.
  - reflexivity.
  - cbn [vdev_pt_init_validate_from].
    rewrite (Hall idx) by lia. rewrite Z.eqb_refl. cbn [negb].
    apply IH. intros i Hi. apply Hall. lia.
Qed.

(** ** Alignment *)

(** C5.  For every offset and every width in {1,2,4} with the offset not a
    multiple of the width, [vdev_pt_cfgread] stores 0xFFFFFFFF and returns
    -EINVAL, and [vdev_pt_cfgwrite] returns the same status; both leave the
    whole world as it was: no field of the device changes and the trace of
    calls gains nothing, so no port is touched. *)
Theorem misaligned_access_rejected
  (env : collaborators) (w : world) (offset bytes val : Z) :
  bytes = 1 \/ bytes = 2 \/ bytes = 4 ->
  offset mod bytes <> 0 ->
  vdev_pt_cfgread env offset bytes w = ((0xFFFFFFFF, - EINVAL), w) /\
  vdev_pt_cfgwrite env offset bytes val w = (- EINVAL, w).
Proof.
  intros Hb Hmis.
  assert (Hm : misaligned offset bytes = true).
  { rewrite misaligned_spec by exact Hb.
    apply negb_true_iff, Z.eqb_neq, Hmis. }
  unfold vdev_pt_cfgread, vdev_pt_cfgwrite. rewrite Hm. split; reflexivity.
Qed.

Lemma misaligned_access_rejected_witness :
  vdev_pt_cfgread (sample_env 2 0 0 0) 0x12 4 (sample_world 0 0)
    = ((0xFFFFFFFF, - EINVAL), sample_world 0 0) /\
  vdev_pt_cfgwrite (sample_env 2 0 0 0) 0x12 4 0x80000000 (sample_world 0 0)
    = (- EINVAL, sample_world 0 0).
Proof.
  apply (misaligned_access_rejected (sample_env 2 0 0 0) (sample_world 0 0)
           0x12 4 0x80000000).
  - right; right; reflexivity.
  - vm_compute. discriminate.
Defined.

(** ** BAR type gate *)

(** C6.  When one of the six BAR slots has a type other than MEM32,
    [vdev_pt_init] returns -EINVAL; the device and the vm are as before and
    the only call made is the error log: no paging structure is allocated,
    no IOMMU domain is created, nothing is attached, and the virtual
    configuration space is not written. *)
Theorem init_rejects_non_mem32
  (env : collaborators) (w : world) (i : Z) :
  0 <= i < PCI_BAR_COUNT ->
  bar_type (bar_at (bar (w_vdev w)) i) <> PCIM_BAR_MEM_32 ->
  let r := vdev_pt_init env w in
  fst r = - EINVAL /\
  w_vdev (snd r) = w_vdev w /\
  w_vm (snd r) = w_vm w /\
  calls_of (vdev_pt_init env) w
    = [EvPrErr "virtual bar can only be of type PCIM_BAR_MEM_32!"] /\
  iommu_calls (calls_of (vdev_pt_init env) w) = [].
Proof.
  intros Hi Hbad.
  assert (Hv : vdev_pt_init_validate (w_vdev w) = - EINVAL).
  { unfold vdev_pt_init_validate.
    apply (validate_from_bad _ _ 0 i); [| exact Hbad].
    unfold PCI_BAR_COUNT in *. simpl. lia. }
  assert (Hrun : vdev_pt_init env w
                 = (- EINVAL,
                    log (EvPrErr
                      "virtual bar can only be of type PCIM_BAR_MEM_32!") w)).
  { unfold vdev_pt_init, bind, get_vdev. rewrite Hv. reflexivity. }
  assert (Hcalls : calls_of (vdev_pt_init env) w
    = [EvPrErr "virtual bar can only be of type PCIM_BAR_MEM_32!"]).
  { apply calls_of_app. rewrite Hrun. reflexivity. }
  cbv zeta. rewrite Hcalls, Hrun. repeat split; reflexivity.
Qed.

Lemma init_rejects_non_mem32_witness :
  let w := sample_world 0 4 in
  let r := vdev_pt_init (sample_env 2 0 0 0) w in
  fst r = - EINVAL /\
  w_vdev (snd r) = w_vdev w /\
  w_vm (snd r) = w_vm w /\
  calls_of (vdev_pt_init (sample_env 2 0 0 0)) w
    = [EvPrErr "virtual bar can only be of type PCIM_BAR_MEM_32!"] /\
  iommu_calls (calls_of (vdev_pt_init (sample_env 2 0 0 0)) w) = [].
Proof.
  apply (init_rejects_non_mem32 (sample_env 2 0 0 0) (sample_world 0 4) 5).
  - unfold PCI_BAR_COUNT. lia.
  - vm_compute. discriminate.
Defined.

(** ** Running the BAR reprogram engine *)

Lemma world_after_nil (w : world) : world_after w [] = w.
Proof.
  destruct w as [v g t]. unfold world_after. cbn. now rewrite app_nil_r.
Qed.

Lemma world_after_after (w : world) (d1 d2 : list event) :
  world_after (world_after w d1) d2 = world_after w (d1 ++ d2).
Proof.
  unfold world_after. cbn. now rewrite app_assoc.
Qed.

Lemma calls_of_world_after {A} (m : M A) (w : world) (d : list event) :
  snd (m w) = world_after w d -> calls_of m w = d.
Proof.
  intros H. apply calls_of_app. now rewrite H.
Qed.

Ltac pt_unfold :=
  unfold pci_pdev_read_cfg, pci_pdev_write_cfg, spinlock_obtain,
    spinlock_release, pio_write, pio_write8, pio_write16, pio_write32,
    pio_read8, pio_read16, pio_read32, call_ept_mr_del, call_ept_mr_add,
    call_alloc_paging_struct, call_create_iommu_domain,
    call_assign_iommu_device, call_unassign_iommu_device, pr_err,
    bind, ret, get_vdev, put_vdev, get_vm, put_vm, history, emit, log,
    set_vdev, set_vm, world_after.

Lemma cfgwrite_bar_route env offset bytes val w :
  misaligned offset bytes = false -> bar_access offset = true ->
  vdev_pt_cfgwrite env offset bytes val w
  = (0, snd (vdev_pt_cfgwrite_bar env offset bytes val w)).
Proof.
  intros Ha Hb. unfold vdev_pt_cfgwrite. rewrite Ha, Hb.
  unfold bind. now destruct (vdev_pt_cfgwrite_bar env offset bytes val w).
Qed.

(** The driver's read leaves device and vm alone and makes four calls,
    all of them its own. *)
Lemma pdev_read_run env pd offset bytes w :
  exists d,
    pci_pdev_read_cfg env pd offset bytes w
      = (fst (pci_pdev_read_cfg env pd offset bytes w), world_after w d) /\
    port_driver_calls d = d /\ translation_calls d = [] /\ d <> [].
Proof.
  unfold pci_pdev_read_cfg.
  destruct (bytes =? 1); [| destruct (bytes =? 2)];
    pt_unfold; cbn; rewrite <- !app_assoc; cbn;
    (eexists; split; [reflexivity | split; [reflexivity |
       split; [reflexivity | discriminate]]]).
Qed.

Lemma pdev_write_run pd offset bytes val w :
  exists d,
    pci_pdev_write_cfg pd offset bytes val w = (tt, world_after w d) /\
    port_driver_calls d = d /\ translation_calls d = [] /\ d <> [].
Proof.
  unfold pci_pdev_write_cfg.
  destruct (bytes =? 1); [| destruct (bytes =? 2)];
    pt_unfold; cbn; rewrite <- !app_assoc; cbn;
    (eexists; split; [reflexivity | split; [reflexivity |
       split; [reflexivity | discriminate]]]).
Qed.

Lemma memen_run env w :
  memen env w
  = (fst (memen env w),
     world_after w
       (calls_of (pci_pdev_read_cfg env (pdev (w_vdev w)) PCIR_COMMAND 2) w)).
Proof.
  destruct (pdev_read_run env (pdev (w_vdev w)) PCIR_COMMAND 2 w)
    as (d & Hrun & _).
  assert (Hc : calls_of (pci_pdev_read_cfg env (pdev (w_vdev w))
                           PCIR_COMMAND 2) w = d).
  { apply calls_of_world_after. now rewrite Hrun. }
  rewrite Hc. unfold memen, bind, get_vdev. rewrite Hrun. reflexivity.
Qed.

(** [vdev_pt_remap_bar], case by case. *)
Lemma remap_unmapped_to_zero env idx w :
  bar_base (bar_at (bar (w_vdev w)) idx) = 0 ->
  vdev_pt_remap_bar env idx 0 w = (0, w).
Proof.
  intros Hb. unfold vdev_pt_remap_bar. pt_unfold. rewrite Hb. reflexivity.
Qed.

Lemma remap_unmapped env idx new_base w :
  bar_base (bar_at (bar (w_vdev w)) idx) = 0 -> new_base <> 0 ->
  let r := ept_mr_add env (w_trace w) (nworld_eptp (w_vm w))
             (bar_base (bar_at (pdev_bar (pdev (w_vdev w))) idx)) new_base
             (bar_size (bar_at (bar (w_vdev w)) idx))
             (Z.lor (Z.lor EPT_WR EPT_RD) EPT_UNCACHED) in
  vdev_pt_remap_bar env idx new_base w
  = (r, world_after w
          [EvEptMrAdd (nworld_eptp (w_vm w))
             (bar_base (bar_at (pdev_bar (pdev (w_vdev w))) idx)) new_base
             (bar_size (bar_at (bar (w_vdev w)) idx))
             (Z.lor (Z.lor EPT_WR EPT_RD) EPT_UNCACHED) r]).
Proof.
  intros Hb Hn. unfold vdev_pt_remap_bar. pt_unfold. rewrite Hb.
  apply Z.eqb_neq in Hn. rewrite Hn. reflexivity.
Qed.

Lemma remap_mapped env idx new_base w :
  bar_base (bar_at (bar (w_vdev w)) idx) <> 0 ->
  let b := bar_at (bar (w_vdev w)) idx in
  let eptp := nworld_eptp (w_vm w) in
  let r_del := ept_mr_del env (w_trace w) eptp (bar_base b) (bar_size b) in
  let del := EvEptMrDel eptp (bar_base b) (bar_size b) r_del in
  let r_add := ept_mr_add env (w_trace w ++ [del]) eptp
                 (bar_base (bar_at (pdev_bar (pdev (w_vdev w))) idx))
                 new_base (bar_size b)
                 (Z.lor (Z.lor EPT_WR EPT_RD) EPT_UNCACHED) in
  vdev_pt_remap_bar env idx new_base w
  = if negb (r_del =? 0) then (r_del, world_after w [del])
    else if negb (new_base =? 0) then
      (r_add, world_after w
         [del; EvEptMrAdd eptp
                 (bar_base (bar_at (pdev_bar (pdev (w_vdev w))) idx))
                 new_base (bar_size b)
                 (Z.lor (Z.lor EPT_WR EPT_RD) EPT_UNCACHED) r_add])
    else (r_del, world_after w [del]).
Proof.
  intros Hb. cbv zeta. unfold vdev_pt_remap_bar. pt_unfold.
  apply Z.eqb_neq in Hb. rewrite Hb. cbn.
  destruct (ept_mr_del env (w_trace w) (nworld_eptp (w_vm w))
              (bar_base (bar_at (bar (w_vdev w)) idx))
              (bar_size (bar_at (bar (w_vdev w)) idx)) =? 0); cbn;
    [| reflexivity].
  destruct (new_base =? 0); cbn; [reflexivity |].
  rewrite <- app_assoc. reflexivity.
Qed.

(** Whatever the case, the remap leaves device and vm alone and makes only
    translation calls. *)
Lemma remap_run env idx new_base w :
  exists d,
    vdev_pt_remap_bar env idx new_base w
      = (fst (vdev_pt_remap_bar env idx new_base w), world_after w d) /\
    translation_calls d = d /\ port_driver_calls d = [].
Proof.
  destruct (Z.eq_dec (bar_base (bar_at (bar (w_vdev w)) idx)) 0) as [Hb | Hb].
  - destruct (Z.eq_dec new_base 0) as [-> | Hn].
    + exists []. rewrite (remap_unmapped_to_zero env idx w Hb).
      rewrite world_after_nil. repeat split; reflexivity.
    + eexists. rewrite (remap_unmapped env idx new_base w Hb Hn).
      repeat split; reflexivity.
  - rewrite (remap_mapped env idx new_base w Hb).
    destruct (negb _); [| destruct (negb _)];
      eexists; repeat split; reflexivity.
Qed.

Lemma cfgwrite_bar_noop env offset bytes val w :
  decoded_base (bar_size (bar_at (bar (w_vdev w)) (bar_index offset))) val
    = bar_base (bar_at (bar (w_vdev w)) (bar_index offset)) ->
  vdev_pt_cfgwrite_bar env offset bytes val w = (tt, w).
Proof.
  intros H. unfold vdev_pt_cfgwrite_bar.
  unfold bind at 1. unfold get_vdev at 1.
  fold (bar_index offset).
  fold (bar_mask (bar_size (bar_at (bar (w_vdev w)) (bar_index offset)))).
  fold (candidate_bar
          (bar_size (bar_at (bar (w_vdev w)) (bar_index offset))) val).
  fold (decoded_base
          (bar_size (bar_at (bar (w_vdev w)) (bar_index offset))) val).
  apply Z.eqb_eq in H. rewrite H. reflexivity.
Qed.

Lemma cfgwrite_bar_changed env offset bytes val w :
  let idx := bar_index offset in
  let sz := bar_size (bar_at (bar (w_vdev w)) idx) in
  let dm := calls_of
              (pci_pdev_read_cfg env (pdev (w_vdev w)) PCIR_COMMAND 2) w in
  decoded_base sz val <> bar_base (bar_at (bar (w_vdev w)) idx) ->
  exists dr,
    vdev_pt_cfgwrite_bar env offset bytes val w
      = (tt, mk_world (committed_vdev (w_vdev w) offset val) (w_vm w)
               (w_trace w ++ dm ++ dr)) /\
    port_driver_calls dr = [] /\
    (if negb (fst (memen env w) =? 0) && negb (val =? 0xFFFFFFFF)
     then translation_calls dr
          = calls_of (vdev_pt_remap_bar env idx (decoded_base sz val))
              (world_after w dm)
     else dr = []).
Proof.
  intros idx sz dm H. unfold vdev_pt_cfgwrite_bar.
  unfold bind at 1. unfold get_vdev at 1.
  fold (bar_index offset). fold idx. fold sz.
  fold (bar_mask sz). fold (candidate_bar sz val).
  fold (decoded_base sz val).
  apply Z.eqb_neq in H. rewrite H.
  unfold bind at 1.
  pose proof (memen_run env w) as Hm. fold dm in Hm.
  set (m := fst (memen env w)) in *. rewrite Hm. clearbody m.
  change (u32 (Z.lnot 0)) with 0xFFFFFFFF.
  destruct (negb (m =? 0) && negb (val =? 0xFFFFFFFF)).
  - destruct (remap_run env idx (decoded_base sz val) (world_after w dm))
      as (d & Hrun & Htr & Hport).
    assert (Hc : calls_of (vdev_pt_remap_bar env idx (decoded_base sz val))
                   (world_after w dm) = d).
    { apply calls_of_world_after. now rewrite Hrun. }
    rewrite Hc. unfold bind at 1. unfold bind at 1. rewrite Hrun.
    destruct (negb (fst (vdev_pt_remap_bar env idx (decoded_base sz val)
                           (world_after w dm)) =? 0)).
    + exists (d ++ [EvPrErr "vdev_pt_remap_bar failed: %d"]).
      split; [| split].
      * pt_unfold. cbn. unfold committed_vdev. fold idx. fold sz.
        rewrite <- !app_assoc. reflexivity.
      * unfold port_driver_calls in *. rewrite List.filter_app, Hport.
        reflexivity.
      * unfold translation_calls in *. rewrite List.filter_app, Htr.
        cbn. apply app_nil_r.
    + exists d. split; [| split].
      * pt_unfold. cbn. unfold committed_vdev. fold idx. fold sz.
        rewrite <- !app_assoc. reflexivity.
      * exact Hport.
      * exact Htr.
  - exists []. split; [| split]; try reflexivity.
    pt_unfold. cbn. unfold committed_vdev. fold idx. fold sz.
    rewrite app_nil_r. reflexivity.
Qed.

(** ** Arithmetic of the BAR register *)

Lemma bar_mask_range (sz : Z) : 0 <= bar_mask sz < 2 ^ 32.
Proof. unfold bar_mask, u32. apply Z.mod_pos_bound. lia. Qed.

Lemma u32_land_mask (val sz : Z) :
  u32 (Z.land val (bar_mask sz)) = Z.land val (bar_mask sz).
Proof.
  unfold u32. rewrite <- Z.land_ones by lia.
  rewrite <- Z.land_assoc. f_equal.
  rewrite Z.land_ones by lia. apply Z.mod_small, bar_mask_range.
Qed.

Lemma candidate_bar_eq (sz val : Z) :
  candidate_bar sz val = Z.land val (bar_mask sz).
Proof. unfold candidate_bar. cbn. apply Z.lor_0_r. Qed.

Lemma u32_candidate_bar (sz val : Z) :
  u32 (candidate_bar sz val) = candidate_bar sz val.
Proof. rewrite candidate_bar_eq. apply u32_land_mask. Qed.

Lemma decoded_base_probe (sz : Z) :
  decoded_base sz 0xFFFFFFFF = PCI_BAR_BASE (bar_mask sz).
Proof.
  unfold decoded_base. rewrite candidate_bar_eq. f_equal.
  rewrite Z.land_comm. change 0xFFFFFFFF with (Z.ones 32).
  rewrite Z.land_ones by lia. apply Z.mod_small, bar_mask_range.
Qed.

Lemma bar_mask_low_bits (k n : Z) :
  0 <= k -> 0 <= n < k -> Z.testbit (bar_mask (2 ^ k)) n = false.
Proof.
  intros Hk Hn. unfold bar_mask, u32.
  destruct (Z.lt_ge_cases n 32) as [Hlt | Hge].
  - rewrite Z.mod_pow2_bits_low by lia.
    rewrite Z.lnot_spec by lia.
    replace (2 ^ k - 1) with (Z.ones k) by (rewrite Z.ones_equiv; lia).
    rewrite Z.ones_spec_low by lia. reflexivity.
  - apply Z.mod_pow2_bits_high. lia.
Qed.

Lemma decoded_base_aligned (k val : Z) :
  0 <= k -> (2 ^ k | decoded_base (2 ^ k) val).
Proof.
  intros Hk. apply Z.mod_divide; [lia |].
  rewrite <- Z.land_ones by exact Hk.
  apply Z.bits_inj'. intros n Hn.
  rewrite Z.land_spec, Z.bits_0.
  destruct (Z.lt_ge_cases n k) as [Hlt | Hge].
  - unfold decoded_base, PCI_BAR_BASE. rewrite candidate_bar_eq.
    rewrite !Z.land_spec, bar_mask_low_bits by lia.
    now rewrite andb_false_r.
  - rewrite Z.ones_spec_high by lia. apply andb_false_r.
Qed.

Lemma bar_index_range (offset : Z) :
  bar_access offset = true -> 0 <= bar_index offset < PCI_BAR_COUNT.
Proof.
  unfold bar_access, bar_index, PCIR_BAR, PCIR_BARS, PCI_BAR_COUNT, u32.
  intros H. apply andb_true_iff in H as [H1 H2].
  apply Z.leb_le in H1. apply Z.ltb_lt in H2.
  rewrite Z.mod_small by lia. rewrite Z.shiftr_div_pow2 by lia.
  change (2 ^ 2) with 4. split.
  - apply Z.div_pos; lia.
  - apply Z.div_lt_upper_bound; lia.
Qed.

Lemma bar_dword_range (offset : Z) :
  bar_access offset = true -> 4 <= Z.shiftr offset 2 < 10.
Proof.
  unfold bar_access, PCIR_BAR, PCIR_BARS, PCI_BAR_COUNT.
  intros H. apply andb_true_iff in H as [H1 H2].
  apply Z.leb_le in H1. apply Z.ltb_lt in H2.
  rewrite Z.shiftr_div_pow2 by lia. change (2 ^ 2) with 4. split.
  - apply Z.div_le_lower_bound; lia.
  - apply Z.div_lt_upper_bound; lia.
Qed.

(** ** The committed device *)

Lemma bar_at_insert_same (bars : list pci_bar) (idx : Z) (b : pci_bar) :
  0 <= idx -> (Z.to_nat idx < length bars)%nat ->
  bar_at (<[Z.to_nat idx := b]> bars) idx = b.
Proof.
  intros _ Hlt. unfold bar_at.
  now rewrite list_lookup_insert_eq by exact Hlt.
Qed.

Lemma committed_base (vdev : pci_vdev) (offset val : Z) :
  length (bar vdev) = Z.to_nat PCI_BAR_COUNT ->
  bar_access offset = true ->
  bar_base (bar_at (bar (committed_vdev vdev offset val)) (bar_index offset))
  = decoded_base (bar_size (bar_at (bar vdev) (bar_index offset))) val.
Proof.
  intros Hlen Hacc. pose proof (bar_index_range offset Hacc) as Hr.
  unfold committed_vdev, set_bar_base. cbn.
  rewrite bar_at_insert_same; [reflexivity | lia |].
  rewrite Hlen. apply Z2Nat.inj_lt; lia.
Qed.

Lemma committed_dword (vdev : pci_vdev) (offset val : Z) :
  length (cfgdata vdev) = 64%nat ->
  bar_access offset = true ->
  pci_vdev_read_cfg_u32 (committed_vdev vdev offset val) offset
  = candidate_bar (bar_size (bar_at (bar vdev) (bar_index offset))) val.
Proof.
  intros Hlen Hacc. pose proof (bar_dword_range offset Hacc) as Hr.
  unfold committed_vdev, set_bar_base, pci_vdev_read_cfg_u32, cfg_dword,
    pci_vdev_write_cfg_u32. cbn.
  rewrite list_lookup_insert_eq.
  - cbn. apply u32_candidate_bar.
  - rewrite Hlen. change 64%nat with (Z.to_nat 64).
    apply Z2Nat.inj_lt; lia.
Qed.

(** ** No-op on an identical base *)

Lemma noop_write_run
  (env : collaborators) (w : world) (offset bytes val : Z) :
  misaligned offset bytes = false ->
  bar_access offset = true ->
  decoded_base (bar_size (bar_at (bar (w_vdev w)) (bar_index offset))) val
    = bar_base (bar_at (bar (w_vdev w)) (bar_index offset)) ->
  vdev_pt_cfgwrite env offset bytes val w = (0, w) /\
  calls_of (vdev_pt_cfgwrite env offset bytes val) w = [].
Proof.
  intros Ha Hb Hsame.
  assert (Hrun : vdev_pt_cfgwrite env offset bytes val w = (0, w)).
  { rewrite cfgwrite_bar_route by assumption.
    now rewrite cfgwrite_bar_noop. }
  split; [exact Hrun |].
  apply calls_of_same. now rewrite Hrun.
Qed.

(** C8.  An aligned write to a BAR register whose value decodes, after
    masking with ~(size-1), to the descriptor's current base returns 0 and
    leaves the whole world as it was: the shadow BAR table, the virtual
    configuration-space image, and the trace of calls, so no translation is
    added or removed. *)
Theorem same_base_write_is_noop
  (env : collaborators) (w : world) (offset bytes val : Z) :
  misaligned offset bytes = false ->
  bar_access offset = true ->
  decoded_base (bar_size (bar_at (bar (w_vdev w)) (bar_index offset))) val
    = bar_base (bar_at (bar (w_vdev w)) (bar_index offset)) ->
  vdev_pt_cfgwrite env offset bytes val w = (0, w) /\
  calls_of (vdev_pt_cfgwrite env offset bytes val) w = [].
Proof.
  intros Ha Hb Hsame. now apply noop_write_run.
Qed.

Lemma same_base_write_is_noop_witness :
  let w := sample_world 0x80000000 0 in
  vdev_pt_cfgwrite (sample_env 2 0 0 0) 0x10 4 0x80001234 w = (0, w) /\
  calls_of (vdev_pt_cfgwrite (sample_env 2 0 0 0) 0x10 4 0x80001234) w = [].
Proof.
  apply (same_base_write_is_noop (sample_env 2 0 0 0)
           (sample_world 0x80000000 0) 0x10 4 0x80001234);
    vm_compute; reflexivity.
Defined.

(** ** Access width of a BAR write *)

(** C10.  For an aligned write in the BAR register range the width (1, 2
    or 4) plays no part: the write is the engine's run for a 4-byte access
    of the same 32-bit value, it equals the 4-byte write at that offset
    whenever that one is aligned too, and when the base changes the whole
    masked 32-bit value becomes the dword of the image holding the
    register. *)
Theorem bar_write_width_ignored
  (env : collaborators) (w : world) (offset bytes val : Z) :
  bytes = 1 \/ bytes = 2 \/ bytes = 4 ->
  misaligned offset bytes = false ->
  bar_access offset = true ->
  let sz := bar_size (bar_at (bar (w_vdev w)) (bar_index offset)) in
  let r := vdev_pt_cfgwrite env offset bytes val w in
  r = (0, snd (vdev_pt_cfgwrite_bar env offset 4 val w)) /\
  (misaligned offset 4 = false -> r = vdev_pt_cfgwrite env offset 4 val w) /\
  (wf_vdev (w_vdev w) ->
   decoded_base sz val <> bar_base (bar_at (bar (w_vdev w)) (bar_index offset)) ->
   pci_vdev_read_cfg_u32 (w_vdev (snd r)) offset
   = Z.land val (bar_mask sz)).
Proof.
  intros _ Ha Hb sz r.
  assert (Hbar : forall b1 b2,
            vdev_pt_cfgwrite_bar env offset b1 val w
            = vdev_pt_cfgwrite_bar env offset b2 val w) by reflexivity.
  assert (Hr : r = (0, snd (vdev_pt_cfgwrite_bar env offset 4 val w))).
  { unfold r. rewrite cfgwrite_bar_route by assumption.
    now rewrite (Hbar bytes 4). }
  split; [exact Hr | split].
  - intros Ha4. rewrite Hr. symmetry. now apply cfgwrite_bar_route.
  - intros (_ & _ & Hlen) Hne. rewrite Hr.
    destruct (cfgwrite_bar_changed env offset 4 val w Hne) as (dr & Hrun & _).
    rewrite Hrun. cbn [snd w_vdev].
    rewrite committed_dword by assumption. apply candidate_bar_eq.
Qed.

Lemma bar_write_width_ignored_witness :
  let env := sample_env 2 0 0 0 in
  let w := sample_world 0 0 in
  let r := vdev_pt_cfgwrite env 0x14 2 0x80001234 w in
  r = (0, snd (vdev_pt_cfgwrite_bar env 0x14 4 0x80001234 w)) /\
  (misaligned 0x14 4 = false -> r = vdev_pt_cfgwrite env 0x14 4 0x80001234 w) /\
  (wf_vdev (w_vdev w) ->
   decoded_base 0x1000 0x80001234 <> 0 ->
   pci_vdev_read_cfg_u32 (w_vdev (snd r)) 0x14
   = Z.land 0x80001234 (bar_mask 0x1000)).
Proof.
  apply (bar_write_width_ignored (sample_env 2 0 0 0) (sample_world 0 0)
           0x14 2 0x80001234).
  - right; left; reflexivity.
  - vm_compute; reflexivity.
  - vm_compute; reflexivity.
Defined.

(** ** Probe writes *)

Lemma cfgwrite_calls_changed env offset bytes val w :
  misaligned offset bytes = false -> bar_access offset = true ->
  let idx := bar_index offset in
  let sz := bar_size (bar_at (bar (w_vdev w)) idx) in
  let dm := calls_of
              (pci_pdev_read_cfg env (pdev (w_vdev w)) PCIR_COMMAND 2) w in
  decoded_base sz val <> bar_base (bar_at (bar (w_vdev w)) idx) ->
  exists dr,
    calls_of (vdev_pt_cfgwrite env offset bytes val) w = dm ++ dr /\
    w_vdev (snd (vdev_pt_cfgwrite env offset bytes val w))
      = committed_vdev (w_vdev w) offset val /\
    w_vm (snd (vdev_pt_cfgwrite env offset bytes val w)) = w_vm w /\
    port_driver_calls dr = [] /\
    (if negb (fst (memen env w) =? 0) && negb (val =? 0xFFFFFFFF)
     then translation_calls dr
          = calls_of (vdev_pt_remap_bar env idx (decoded_base sz val))
              (world_after w dm)
     else dr = []).
Proof.
  intros Ha Hb idx sz dm Hne.
  destruct (cfgwrite_bar_changed env offset bytes val w Hne)
    as (dr & Hrun & Hport & Hmap).
  assert (Hw : vdev_pt_cfgwrite env offset bytes val w
               = (0, mk_world (committed_vdev (w_vdev w) offset val) (w_vm w)
                       (w_trace w ++ dm ++ dr))).
  { rewrite cfgwrite_bar_route by assumption. now rewrite Hrun. }
  exists dr. repeat split; try assumption; try (now rewrite Hw).
  apply calls_of_app. now rewrite Hw.
Qed.

Lemma memen_calls_not_translation env w :
  translation_calls
    (calls_of (pci_pdev_read_cfg env (pdev (w_vdev w)) PCIR_COMMAND 2) w) = [].
Proof.
  destruct (pdev_read_run env (pdev (w_vdev w)) PCIR_COMMAND 2 w)
    as (d & Hrun & _ & Htr & _).
  rewrite (calls_of_world_after _ w d); [exact Htr | now rewrite Hrun].
Qed.

(** C2 (as the code has it).  An aligned write of 0xFFFFFFFF to a BAR
    register makes no translation call; the descriptor's base, however, is
    committed like that of any other write and becomes the base field of
    the size mask ~(size-1), so it is unchanged only when it already had
    that value. *)
Theorem probe_write_no_translation
  (env : collaborators) (w : world) (offset bytes : Z) :
  misaligned offset bytes = false ->
  bar_access offset = true ->
  let idx := bar_index offset in
  let w' := snd (vdev_pt_cfgwrite env offset bytes 0xFFFFFFFF w) in
  translation_calls (calls_of (vdev_pt_cfgwrite env offset bytes 0xFFFFFFFF) w)
  = [] /\
  (wf_vdev (w_vdev w) ->
   bar_base (bar_at (bar (w_vdev w')) idx)
   = PCI_BAR_BASE (bar_mask (bar_size (bar_at (bar (w_vdev w)) idx)))).
Proof.
  intros Ha Hb idx w'.
  destruct (Z.eq_dec
              (decoded_base (bar_size (bar_at (bar (w_vdev w)) idx)) 0xFFFFFFFF)
              (bar_base (bar_at (bar (w_vdev w)) idx))) as [Hsame | Hne].
  - destruct (noop_write_run env w offset bytes 0xFFFFFFFF
                Ha Hb Hsame) as [Hrun Hcalls].
    split.
    + now rewrite Hcalls.
    + intros _. unfold w'. rewrite Hrun. cbn [snd].
      fold idx. rewrite <- Hsame. apply decoded_base_probe.
  - destruct (cfgwrite_calls_changed env offset bytes 0xFFFFFFFF w Ha Hb Hne)
      as (dr & Hcalls & Hvdev & _ & _ & Hmap).
    rewrite Z.eqb_refl, andb_false_r in Hmap. subst dr.
    split.
    + rewrite Hcalls, app_nil_r. apply memen_calls_not_translation.
    + intros (Hlen & _). unfold w'. rewrite Hvdev.
      unfold idx. rewrite committed_base by assumption.
      apply decoded_base_probe.
Qed.

Lemma sample_world_wf (base0 type5 : Z) :
  wf_vdev (w_vdev (sample_world base0 type5)).
Proof. repeat split; reflexivity. Qed.

Lemma probe_write_no_translation_witness :
  let env := sample_env 2 0 0 0 in
  let w := sample_world 0x80000000 0 in
  let idx := bar_index 0x10 in
  let w' := snd (vdev_pt_cfgwrite env 0x10 4 0xFFFFFFFF w) in
  translation_calls (calls_of (vdev_pt_cfgwrite env 0x10 4 0xFFFFFFFF) w)
  = [] /\
  (wf_vdev (w_vdev w) ->
   bar_base (bar_at (bar (w_vdev w')) idx)
   = PCI_BAR_BASE (bar_mask (bar_size (bar_at (bar (w_vdev w)) idx)))).
Proof.
  apply (probe_write_no_translation (sample_env 2 0 0 0)
           (sample_world 0x80000000 0) 0x10 4); vm_compute; reflexivity.
Defined.

(** C2 (as stated) fails: on a BAR of size 0x10000 with base 0, the probe
    write of 0xFFFFFFFF sets the descriptor's base to 0xFFFF0000. *)
Lemma probe_write_changes_base :
  ~ probe_write_claim (sample_env 2 0 0 0) (sample_world 0 0) 0x10 4.
Proof.
  unfold probe_write_claim. intros H.
  destruct H as [Hbase _].
  - apply sample_world_wf.
  - vm_compute; reflexivity.
  - vm_compute; reflexivity.
  - vm_compute in Hbase. discriminate.
Qed.

(** ** Remap on a change of base *)

Lemma translation_calls_app (l1 l2 : list event) :
  translation_calls (l1 ++ l2) = translation_calls l1 ++ translation_calls l2.
Proof. apply List.filter_app. Qed.

Lemma do_map_true env w val :
  memen_set env w -> val <> 0xFFFFFFFF ->
  negb (fst (memen env w) =? 0) && negb (val =? 0xFFFFFFFF) = true.
Proof.
  intros Hm Hv. apply andb_true_iff. split; apply negb_true_iff, Z.eqb_neq.
  - exact Hm.
  - exact Hv.
Qed.

(** C1 (as the code has it).  On a BAR whose base [B_old] is not 0, with
    memory decoding enabled, an aligned write of a value other than
    0xFFFFFFFF that decodes to [B_new] different from [B_old] returns 0,
    commits [B_new] as the descriptor's base whatever the translation calls
    answer, and makes exactly one removal of ([B_old], size) as its first
    translation call.  The removal is the only translation call when it
    reports an error or when [B_new] is 0; otherwise it is followed by
    exactly one addition of (physical base, [B_new], size, RW|UNCACHED). *)
Theorem remap_on_base_change
  (env : collaborators) (w : world) (offset bytes val : Z) :
  let idx := bar_index offset in
  let b := bar_at (bar (w_vdev w)) idx in
  let phys := bar_at (pdev_bar (pdev (w_vdev w))) idx in
  let B_new := decoded_base (bar_size b) val in
  let eptp := nworld_eptp (w_vm w) in
  let prot := Z.lor (Z.lor EPT_WR EPT_RD) EPT_UNCACHED in
  wf_vdev (w_vdev w) ->
  misaligned offset bytes = false -> bar_access offset = true ->
  bar_base b <> 0 -> memen_set env w -> val <> 0xFFFFFFFF ->
  B_new <> bar_base b ->
  let r := vdev_pt_cfgwrite env offset bytes val w in
  let calls :=
    translation_calls (calls_of (vdev_pt_cfgwrite env offset bytes val) w) in
  fst r = 0 /\
  bar_base (bar_at (bar (w_vdev (snd r))) idx) = B_new /\
  exists r_del,
    let del := EvEptMrDel eptp (bar_base b) (bar_size b) r_del in
    ((r_del <> 0 \/ B_new = 0) /\ calls = [del]) \/
    (r_del = 0 /\ B_new <> 0 /\
     exists r_add,
       calls = [del; EvEptMrAdd eptp (bar_base phys) B_new (bar_size b)
                       prot r_add]).
Proof.
  intros idx b phys B_new eptp prot (Hlen & _) Ha Hb Hold Hmem Hval Hne r calls.
  destruct (cfgwrite_calls_changed env offset bytes val w Ha Hb Hne)
    as (dr & Hcalls & Hvdev & _ & _ & Hmap).
  rewrite (do_map_true env w val Hmem Hval) in Hmap.
  split; [| split].
  - unfold r. now rewrite cfgwrite_bar_route.
  - unfold r. rewrite Hvdev. now apply committed_base.
  - set (dm := calls_of
                 (pci_pdev_read_cfg env (pdev (w_vdev w)) PCIR_COMMAND 2) w)
      in *.
    assert (Hc : calls
                 = calls_of (vdev_pt_remap_bar env idx B_new)
                     (world_after w dm)).
    { unfold calls. rewrite Hcalls, translation_calls_app.
      unfold dm at 1. rewrite memen_calls_not_translation. exact Hmap. }
    pose proof (remap_mapped env idx B_new (world_after w dm) Hold) as Hrun.
    cbv zeta in Hrun. cbn [world_after w_vdev w_vm w_trace] in Hrun.
    fold b phys eptp prot in Hrun.
    set (r_del := ept_mr_del env (w_trace w ++ dm) eptp (bar_base b)
                    (bar_size b)) in *.
    exists r_del. cbv zeta.
    destruct (Z.eq_dec r_del 0) as [Hz | Hnz].
    + destruct (Z.eq_dec B_new 0) as [Hn0 | Hn1].
      * left. split; [now right |]. rewrite Hc.
        apply calls_of_world_after. rewrite Hrun.
        apply Z.eqb_eq in Hz, Hn0. now rewrite Hz, Hn0.
      * right. split; [exact Hz | split; [exact Hn1 |]].
        eexists. rewrite Hc. apply calls_of_world_after. rewrite Hrun.
        apply Z.eqb_eq in Hz. apply Z.eqb_neq in Hn1.
        rewrite Hz, Hn1. reflexivity.
    + left. split; [now left |]. rewrite Hc.
      apply calls_of_world_after. rewrite Hrun.
      apply Z.eqb_neq in Hnz. now rewrite Hnz.
Qed.

Lemma remap_on_base_change_witness :
  let env := sample_env 2 0 0 0 in
  let w := sample_world 0x90000000 0 in
  let r := vdev_pt_cfgwrite env 0x10 4 0x80000000 w in
  let calls :=
    translation_calls (calls_of (vdev_pt_cfgwrite env 0x10 4 0x80000000) w) in
  fst r = 0 /\
  bar_base (bar_at (bar (w_vdev (snd r))) 0) = 0x80000000 /\
  exists r_del,
    let del := EvEptMrDel 0 0x90000000 0x10000 r_del in
    ((r_del <> 0 \/ 0x80000000 = 0) /\ calls = [del]) \/
    (r_del = 0 /\ 0x80000000 <> 0 /\
     exists r_add,
       calls = [del; EvEptMrAdd 0 0xF0000000 0x80000000 0x10000 3 r_add]).
Proof.
  apply (remap_on_base_change (sample_env 2 0 0 0)
           (sample_world 0x90000000 0) 0x10 4 0x80000000).
  - apply sample_world_wf.
  - vm_compute; reflexivity.
  - vm_compute; reflexivity.
  - vm_compute; discriminate.
  - vm_compute; discriminate.
  - discriminate.
  - vm_compute; discriminate.
Defined.

(** C1 (as stated) fails twice.  When the removal reports an error (here
    5) the addition is not made; and when the new base is 0 (a write of 0)
    no addition is made either. *)
Lemma remap_without_addition :
  ~ remap_ordering_claim (sample_env 2 5 0 0) (sample_world 0x90000000 0)
      0x10 4 0x80000000 /\
  ~ remap_ordering_claim (sample_env 2 0 0 0) (sample_world 0x90000000 0)
      0x10 4 0.
Proof.
  split; unfold remap_ordering_claim; intros H;
    (destruct H as [(r_del & r_add & Hcalls) _];
     [ apply sample_world_wf
     | vm_compute; reflexivity
     | vm_compute; reflexivity
     | vm_compute; discriminate
     | vm_compute; discriminate
     | discriminate
     | vm_compute; discriminate
     | vm_compute in Hcalls; discriminate ]).
Qed.

(** ** End-to-end scenario *)

(** C7.  BAR0 has size 0x10000, physical base 0xF0000000 and shadow base
    0, and memory decoding is enabled.  The 4-byte write of
    0x80000000 | MEM_SPACE | MEM32 to BAR0's offset returns 0, removes no
    translation, adds exactly one, for (0xF0000000, 0x80000000, 0x10000,
    RW|UNCACHED), and sets the descriptor's base to 0x80000000; a 4-byte
    read of the offset afterwards returns 0x80000000 | MEM_SPACE | MEM32
    with status 0. *)
Theorem bar0_first_programming (env : collaborators) (w : world) :
  let val := Z.lor 0x80000000 (Z.lor PCIM_BAR_MEM_SPACE PCIM_BAR_MEM_32) in
  let prot := Z.lor (Z.lor EPT_WR EPT_RD) EPT_UNCACHED in
  wf_vdev (w_vdev w) ->
  bar_size (bar_at (bar (w_vdev w)) 0) = 0x10000 ->
  bar_base (bar_at (bar (w_vdev w)) 0) = 0 ->
  bar_base (bar_at (pdev_bar (pdev (w_vdev w))) 0) = 0xF0000000 ->
  memen_set env w ->
  let r := vdev_pt_cfgwrite env (PCIR_BAR 0) 4 val w in
  fst r = 0 /\
  (exists r_add,
     translation_calls (calls_of (vdev_pt_cfgwrite env (PCIR_BAR 0) 4 val) w)
     = [EvEptMrAdd (nworld_eptp (w_vm w)) 0xF0000000 0x80000000 0x10000
          prot r_add]) /\
  bar_base (bar_at (bar (w_vdev (snd r))) 0) = 0x80000000 /\
  vdev_pt_cfgread env (PCIR_BAR 0) 4 (snd r) = ((val, 0), snd r).
Proof.
  intros val prot Hwf Hsz Hbase Hphys Hmem r.
  change val with 0x80000000 in *. change (PCIR_BAR 0) with 0x10 in *.
  assert (Ha : misaligned 0x10 4 = false) by reflexivity.
  assert (Hb : bar_access 0x10 = true) by reflexivity.
  assert (Hidx : bar_index 0x10 = 0) by reflexivity.
  assert (Hdec : decoded_base
                   (bar_size (bar_at (bar (w_vdev w)) (bar_index 0x10)))
                   0x80000000 = 0x80000000).
  { rewrite Hidx, Hsz. reflexivity. }
  assert (Hne : decoded_base
                  (bar_size (bar_at (bar (w_vdev w)) (bar_index 0x10)))
                  0x80000000
                <> bar_base (bar_at (bar (w_vdev w)) (bar_index 0x10))).
  { rewrite Hdec, Hidx, Hbase. discriminate. }
  destruct (cfgwrite_calls_changed env 0x10 4 0x80000000 w Ha Hb Hne)
    as (dr & Hcalls & Hvdev & _ & _ & Hmap).
  rewrite (do_map_true env w 0x80000000 Hmem) in Hmap by discriminate.
  rewrite Hdec, Hidx in Hmap.
  set (dm := calls_of
               (pci_pdev_read_cfg env (pdev (w_vdev w)) PCIR_COMMAND 2) w)
    in *.
  assert (Hrun := remap_unmapped env 0 0x80000000 (world_after w dm)).
  cbv zeta in Hrun. cbn [world_after w_vdev w_vm w_trace] in Hrun.
  rewrite Hsz, Hphys in Hrun.
  specialize (Hrun Hbase ltac:(discriminate)).
  split; [| split; [| split]].
  - unfold r. now rewrite cfgwrite_bar_route.
  - eexists. rewrite Hcalls, translation_calls_app.
    unfold dm at 1. rewrite memen_calls_not_translation, Hmap.
    apply calls_of_world_after. rewrite Hrun. reflexivity.
  - unfold r. rewrite Hvdev. destruct Hwf as (Hlen & _).
    pose proof (committed_base (w_vdev w) 0x10 0x80000000 Hlen Hb) as Hcb.
    rewrite Hdec, Hidx in Hcb. exact Hcb.
  - unfold vdev_pt_cfgread. rewrite Ha, Hb. unfold bind, get_vdev, ret.
    f_equal. f_equal. unfold r. rewrite Hvdev.
    unfold pci_vdev_read_cfg. cbn [Z.eqb].
    destruct Hwf as (_ & _ & Hlen).
    rewrite committed_dword by assumption.
    rewrite Hidx, Hsz. reflexivity.
Qed.

Lemma bar0_first_programming_witness :
  let env := sample_env 2 0 0 0 in
  let w := sample_world 0 0 in
  let r := vdev_pt_cfgwrite env 0x10 4 0x80000000 w in
  fst r = 0 /\
  (exists r_add,
     translation_calls (calls_of (vdev_pt_cfgwrite env 0x10 4 0x80000000) w)
     = [EvEptMrAdd 0 0xF0000000 0x80000000 0x10000 3 r_add]) /\
  bar_base (bar_at (bar (w_vdev (snd r))) 0) = 0x80000000 /\
  vdev_pt_cfgread env 0x10 4 (snd r) = ((0x80000000, 0), snd r).
Proof.
  apply (bar0_first_programming (sample_env 2 0 0 0) (sample_world 0 0)).
  - apply sample_world_wf.
  - reflexivity.
  - reflexivity.
  - reflexivity.
  - vm_compute; discriminate.
Defined.

(** ** Routing split *)

(** The driver looks at nothing of the world but the calls made so far. *)
Lemma pdev_read_frame env pd offset bytes w :
  exists v d,
    forall w2, w_trace w2 = w_trace w ->
      pci_pdev_read_cfg env pd offset bytes w2 = (v, world_after w2 d).
Proof.
  unfold pci_pdev_read_cfg.
  destruct (bytes =? 1); [| destruct (bytes =? 2)];
    (eexists; eexists; intros w2 Ht; pt_unfold; cbn;
     rewrite <- !app_assoc; cbn; rewrite !Ht; reflexivity).
Qed.

Lemma pdev_write_frame pd offset bytes val :
  exists d,
    forall w, pci_pdev_write_cfg pd offset bytes val w = (tt, world_after w d).
Proof.
  unfold pci_pdev_write_cfg.
  destruct (bytes =? 1); [| destruct (bytes =? 2)];
    (eexists; intros w; pt_unfold; cbn;
     rewrite <- !app_assoc; cbn; reflexivity).
Qed.

Lemma cfgread_outside_untouched env offset bytes w :
  misaligned offset bytes = false -> bar_access offset = false ->
  shadow_untouched (vdev_pt_cfgread env offset bytes) w.
Proof.
  intros Ha Hb.
  destruct (pdev_read_frame env (pdev (w_vdev w)) offset bytes w)
    as (v & d & Hrun).
  assert (Hgen : forall w2, w_trace w2 = w_trace w ->
            pdev (w_vdev w2) = pdev (w_vdev w) ->
            vdev_pt_cfgread env offset bytes w2 = ((v, 0), world_after w2 d)).
  { intros w2 Ht Hp. unfold vdev_pt_cfgread. rewrite Ha, Hb.
    unfold bind, get_vdev, ret. rewrite Hp, (Hrun w2 Ht). reflexivity. }
  unfold shadow_untouched.
  rewrite (Hgen w) by reflexivity.
  split; [reflexivity | split; [reflexivity |]].
  intros bars cfg.
  rewrite (calls_of_world_after _ w d) by (now rewrite (Hgen w)).
  rewrite (calls_of_world_after _ (with_shadow w bars cfg) d)
    by (now rewrite (Hgen (with_shadow w bars cfg))).
  rewrite (Hgen (with_shadow w bars cfg)) by reflexivity.
  repeat split; reflexivity.
Qed.

Lemma cfgwrite_outside_untouched env offset bytes val w :
  misaligned offset bytes = false -> bar_access offset = false ->
  shadow_untouched (vdev_pt_cfgwrite env offset bytes val) w.
Proof.
  intros Ha Hb.
  destruct (pdev_write_frame (pdev (w_vdev w)) offset bytes val)
    as (d & Hrun).
  assert (Hgen : forall w2, pdev (w_vdev w2) = pdev (w_vdev w) ->
            vdev_pt_cfgwrite env offset bytes val w2 = (0, world_after w2 d)).
  { intros w2 Hp. unfold vdev_pt_cfgwrite. rewrite Ha, Hb.
    unfold bind, get_vdev, ret. rewrite Hp, (Hrun w2). reflexivity. }
  unfold shadow_untouched.
  rewrite (Hgen w) by reflexivity.
  split; [reflexivity | split; [reflexivity |]].
  intros bars cfg.
  rewrite (calls_of_world_after _ w d) by (now rewrite (Hgen w)).
  rewrite (calls_of_world_after _ (with_shadow w bars cfg) d)
    by (now rewrite (Hgen (with_shadow w bars cfg))).
  rewrite (Hgen (with_shadow w bars cfg)) by reflexivity.
  repeat split; reflexivity.
Qed.

Lemma memen_calls_port env w :
  port_driver_calls
    (calls_of (pci_pdev_read_cfg env (pdev (w_vdev w)) PCIR_COMMAND 2) w)
  = calls_of (pci_pdev_read_cfg env (pdev (w_vdev w)) PCIR_COMMAND 2) w.
Proof.
  destruct (pdev_read_run env (pdev (w_vdev w)) PCIR_COMMAND 2 w)
    as (d & Hrun & Hport & _).
  rewrite (calls_of_world_after _ w d); [exact Hport | now rewrite Hrun].
Qed.

(** C3 (as the code has it).  For an aligned access inside the BAR
    register range, [vdev_pt_cfgread] makes no call at all, and the port
    driver calls of [vdev_pt_cfgwrite] are none when the value decodes to
    the current base and otherwise exactly those of one 2-byte driver read
    of the command register (the memory-enable test): the driver never
    writes the physical configuration space.  For an aligned access
    outside the range, both functions neither read nor change the shadow
    BAR table and the virtual configuration-space image. *)
Theorem routing_split
  (env : collaborators) (w : world) (offset bytes val : Z) :
  misaligned offset bytes = false ->
  (bar_access offset = true ->
   calls_of (vdev_pt_cfgread env offset bytes) w = [] /\
   port_driver_calls (calls_of (vdev_pt_cfgwrite env offset bytes val) w)
   = if decoded_base (bar_size (bar_at (bar (w_vdev w)) (bar_index offset)))
          val =? bar_base (bar_at (bar (w_vdev w)) (bar_index offset))
     then []
     else calls_of (pci_pdev_read_cfg env (pdev (w_vdev w)) PCIR_COMMAND 2)
            w) /\
  (bar_access offset = false ->
   shadow_untouched (vdev_pt_cfgread env offset bytes) w /\
   shadow_untouched (vdev_pt_cfgwrite env offset bytes val) w).
Proof.
  intros Ha. split.
  - intros Hb. split.
    + apply calls_of_same. unfold vdev_pt_cfgread. rewrite Ha, Hb.
      reflexivity.
    + destruct (Z.eqb_spec
                  (decoded_base
                     (bar_size (bar_at (bar (w_vdev w)) (bar_index offset)))
                     val)
                  (bar_base (bar_at (bar (w_vdev w)) (bar_index offset))))
        as [Hsame | Hne].
      * destruct (noop_write_run env w offset bytes val
                    Ha Hb Hsame) as [_ Hcalls].
        now rewrite Hcalls.
      * destruct (cfgwrite_calls_changed env offset bytes val w Ha Hb Hne)
          as (dr & Hcalls & _ & _ & Hport & _).
        rewrite Hcalls. unfold port_driver_calls at 1.
        rewrite List.filter_app.
        fold (port_driver_calls dr). rewrite Hport, app_nil_r.
        apply memen_calls_port.
  - intros Hb. split.
    + now apply cfgread_outside_untouched.
    + now apply cfgwrite_outside_untouched.
Qed.

Lemma routing_split_witness :
  let env := sample_env 2 0 0 0 in
  let w := sample_world 0 0 in
  (bar_access 0x10 = true ->
   calls_of (vdev_pt_cfgread env 0x10 4) w = [] /\
   port_driver_calls (calls_of (vdev_pt_cfgwrite env 0x10 4 0x80000000) w)
   = if decoded_base (bar_size (bar_at (bar (w_vdev w)) (bar_index 0x10)))
          0x80000000 =? bar_base (bar_at (bar (w_vdev w)) (bar_index 0x10))
     then []
     else calls_of (pci_pdev_read_cfg env (pdev (w_vdev w)) PCIR_COMMAND 2)
            w) /\
  (bar_access 0x10 = false ->
   shadow_untouched (vdev_pt_cfgread env 0x10 4) w /\
   shadow_untouched (vdev_pt_cfgwrite env 0x10 4 0x80000000) w).
Proof.
  apply (routing_split (sample_env 2 0 0 0) (sample_world 0 0)
           0x10 4 0x80000000).
  vm_compute; reflexivity.
Defined.

(** C3 (as stated) fails: an aligned write to BAR0 that changes the base
    goes through the port driver to read the command register. *)
Lemma bar_write_reads_command_register :
  ~ routing_split_claim (sample_env 2 0 0 0) (sample_world 0 0)
      0x10 4 0x80000000.
Proof.
  unfold routing_split_claim. intros H.
  destruct H as [Hin _]; [vm_compute; reflexivity |].
  destruct Hin as [_ Hw]; [vm_compute; reflexivity |].
  vm_compute in Hw. discriminate.
Qed.

(** ** Attachment result of init *)

Lemma PCIR_BAR_dword (i : Z) : 0 <= i -> Z.shiftr (PCIR_BAR i) 2 = 4 + i.
Proof.
  intros Hi. unfold PCIR_BAR, PCIR_BARS.
  rewrite Z.shiftr_div_pow2 by lia. change (2 ^ 2) with 4.
  rewrite Z.div_add by lia. reflexivity.
Qed.

Lemma init_bar_registers_from_spec (left : nat) :
  forall vdev idx,
    0 <= idx ->
    (Z.to_nat (4 + idx + Z.of_nat left) <= length (cfgdata vdev))%nat ->
    let v' := vdev_pt_init_bar_registers_from vdev idx left in
    bar v' = bar vdev /\ pdev v' = pdev vdev /\
    length (cfgdata v') = length (cfgdata vdev) /\
    (forall j, 0 <= j < 4 + idx -> cfg_dword v' j = cfg_dword vdev j) /\
    (forall i, idx <= i < idx + Z.of_nat left ->
       cfg_dword v' (4 + i)
       = u32 (PCI_BAR (bar_base (bar_at (bar vdev) i))
                      (bar_type (bar_at (bar vdev) i)))).
Proof.
  induction left as [| n IH]; intros vdev idx Hidx Hlen.
  - cbn. repeat split; try reflexivity. intros i Hi. lia.
  - cbn [vdev_pt_init_bar_registers_from].
    set (v1 := pci_vdev_write_cfg_u32 vdev (PCIR_BAR idx)
                 (PCI_BAR (bar_base (bar_at (bar vdev) idx))
                          (bar_type (bar_at (bar vdev) idx)))).
    assert (Hlen1 : length (cfgdata v1) = length (cfgdata vdev)).
    { unfold v1, pci_vdev_write_cfg_u32. cbn. apply length_insert. }
    destruct (IH v1 (idx + 1)) as (Hbar & Hpdev & Hl & Hlow & Hhigh).
    { lia. }
    { rewrite Hlen1. etransitivity; [| exact Hlen]. apply Z2Nat.inj_le; lia. }
    cbv zeta. rewrite Hbar, Hpdev, Hl, Hlen1.
    assert (Hat : cfg_dword v1 (4 + idx)
                  = u32 (PCI_BAR (bar_base (bar_at (bar vdev) idx))
                                 (bar_type (bar_at (bar vdev) idx)))).
    { unfold v1, cfg_dword, pci_vdev_write_cfg_u32. cbn [cfgdata].
      rewrite PCIR_BAR_dword by exact Hidx.
      rewrite list_lookup_insert_eq; [reflexivity |].
      eapply Nat.lt_le_trans; [| exact Hlen]. apply Z2Nat.inj_lt; lia. }
    assert (Hother : forall j, 0 <= j -> j <> 4 + idx ->
                       cfg_dword v1 j = cfg_dword vdev j).
    { intros j Hj Hne. unfold v1, cfg_dword, pci_vdev_write_cfg_u32.
      cbn [cfgdata]. rewrite PCIR_BAR_dword by exact Hidx.
      rewrite list_lookup_insert_ne; [reflexivity |].
      intros Heq. apply Hne. apply Z2Nat.inj in Heq; lia. }
    repeat split; try reflexivity.
    + intros j Hj. rewrite Hlow by lia. apply Hother; lia.
    + intros i Hi. destruct (Z.eq_dec i idx) as [-> | Hne].
      * rewrite Hlow by lia. exact Hat.
      * rewrite Hhigh by lia. reflexivity.
Qed.

(** [vdev_pt_init] once the validation has passed. *)
Lemma init_run_valid env w :
  vdev_pt_init_validate (w_vdev w) = 0 ->
  exists d g' e,
    vdev_pt_init env w
    = (e, mk_world
            (vdev_pt_init_bar_registers_from (w_vdev w) 0
               (Z.to_nat PCI_BAR_COUNT))
            g'
            (w_trace w ++ d ++
               [EvAssignIommuDevice (iommu g')
                  (PCI_BUS (bdf (pdev (w_vdev w))))
                  (LOBYTE (bdf (pdev (w_vdev w)))) e])) /\
    attach_calls d = [].
Proof.
  intros Hv. unfold vdev_pt_init, vdev_pt_init_bar_registers.
  unfold bind at 1. unfold get_vdev at 1. rewrite Hv. cbn [Z.eqb negb].
  unfold bind at 1. unfold get_vm at 1.
  destruct (iommu (w_vm w) =? 0) eqn:Ei;
    [destruct (nworld_eptp (w_vm w) =? 0) eqn:Ep |].
  - pt_unfold. cbn. eexists (_ :: _ :: nil), (mk_vm _ _ _), _.
    split; [rewrite <- !app_assoc; cbn; reflexivity | reflexivity].
  - pt_unfold. cbn. eexists (_ :: nil), (mk_vm _ _ _), _.
    split; [rewrite <- !app_assoc; cbn; reflexivity | reflexivity].
  - pt_unfold. cbn. exists [], (w_vm w). eexists.
    split; [cbn; reflexivity | reflexivity].
Qed.

(** C4 (as the code has it).  When the six BAR slots are MEM32, init makes
    exactly one attach call, for the bus and device/function of the
    physical device, and returns what that call answered, so an attachment
    error reaches the caller; whether or not the call failed, the six BAR
    registers of the virtual configuration-space image are then
    initialised from the descriptors (base | type). *)
Theorem init_returns_attach_result (env : collaborators) (w : world) :
  wf_vdev (w_vdev w) ->
  (forall i, 0 <= i < PCI_BAR_COUNT ->
     bar_type (bar_at (bar (w_vdev w)) i) = PCIM_BAR_MEM_32) ->
  let r := vdev_pt_init env w in
  exists dom e,
    attach_calls (calls_of (vdev_pt_init env) w)
    = [EvAssignIommuDevice dom (PCI_BUS (bdf (pdev (w_vdev w))))
         (LOBYTE (bdf (pdev (w_vdev w)))) e] /\
    fst r = e /\
    bar (w_vdev (snd r)) = bar (w_vdev w) /\
    forall i, 0 <= i < PCI_BAR_COUNT ->
      pci_vdev_read_cfg_u32 (w_vdev (snd r)) (PCIR_BAR i)
      = u32 (PCI_BAR (bar_base (bar_at (bar (w_vdev w)) i))
                     (bar_type (bar_at (bar (w_vdev w)) i))).
Proof.
  intros (_ & _ & Hlen) Hall r.
  assert (Hv : vdev_pt_init_validate (w_vdev w) = 0).
  { apply validate_from_good. intros i Hi. apply Hall.
    unfold PCI_BAR_COUNT in *. simpl in Hi. lia. }
  destruct (init_run_valid env w Hv) as (d & g' & e & Hrun & Hatt).
  destruct (init_bar_registers_from_spec (Z.to_nat PCI_BAR_COUNT)
              (w_vdev w) 0) as (Hbar & _ & _ & _ & Hregs).
  { lia. }
  { rewrite Hlen. unfold PCI_BAR_COUNT. simpl. lia. }
  exists (iommu g'), e. unfold r. rewrite Hrun. cbn [fst snd w_vdev].
  split; [| split; [reflexivity | split; [exact Hbar |]]].
  - rewrite (calls_of_app _ w _ ltac:(rewrite Hrun; reflexivity)).
    unfold attach_calls in *. rewrite List.filter_app, Hatt. reflexivity.
  - intros i Hi. unfold pci_vdev_read_cfg_u32.
    rewrite PCIR_BAR_dword by lia. apply Hregs.
    unfold PCI_BAR_COUNT in *. simpl. lia.
Qed.

Lemma init_returns_attach_result_witness :
  let env := sample_env 2 0 0 (-1) in
  let w := sample_world 0x80000000 0 in
  let r := vdev_pt_init env w in
  exists dom e,
    attach_calls (calls_of (vdev_pt_init env) w)
    = [EvAssignIommuDevice dom (PCI_BUS (bdf (pdev (w_vdev w))))
         (LOBYTE (bdf (pdev (w_vdev w)))) e] /\
    fst r = e /\
    bar (w_vdev (snd r)) = bar (w_vdev w) /\
    forall i, 0 <= i < PCI_BAR_COUNT ->
      pci_vdev_read_cfg_u32 (w_vdev (snd r)) (PCIR_BAR i)
      = u32 (PCI_BAR (bar_base (bar_at (bar (w_vdev w)) i))
                     (bar_type (bar_at (bar (w_vdev w)) i))).
Proof.
  apply (init_returns_attach_result (sample_env 2 0 0 (-1))
           (sample_world 0x80000000 0)).
  - apply sample_world_wf.
  - intros i Hi. unfold PCI_BAR_COUNT in Hi.
    assert (Hc : i = 0 \/ i = 1 \/ i = 2 \/ i = 3 \/ i = 4 \/ i = 5) by lia.
    destruct Hc as [-> | [-> | [-> | [-> | [-> | ->]]]]]; reflexivity.
Defined.

(** C4 (as stated) fails: with an attach call that answers -1, init
    returns -1 and BAR0's register in the image has gone from 0 to
    0x80000000, the descriptor's base. *)
Lemma failed_attach_still_initialises :
  ~ attach_failure_claim (sample_env 2 0 0 (-1)) (sample_world 0x80000000 0).
Proof.
  unfold attach_failure_claim. intros H.
  destruct (H 0x2000 3 0x10 (-1)) as [_ Hregs].
  - vm_compute; reflexivity.
  - discriminate.
  - specialize (Hregs 0 ltac:(unfold PCI_BAR_COUNT; lia)).
    vm_compute in Hregs. discriminate.
Qed.

(** ** Alignment of the descriptor's base *)

Lemma cfgread_keeps_vdev env offset bytes w :
  w_vdev (snd (vdev_pt_cfgread env offset bytes w)) = w_vdev w.
Proof.
  unfold vdev_pt_cfgread.
  destruct (misaligned offset bytes); [reflexivity |].
  destruct (bar_access offset); [reflexivity |].
  unfold bind, get_vdev, ret.
  destruct (pdev_read_run env (pdev (w_vdev w)) offset bytes w)
    as (d & Hrun & _).
  rewrite Hrun. reflexivity.
Qed.

Lemma cfgwrite_vdev env offset bytes val w :
  w_vdev (snd (vdev_pt_cfgwrite env offset bytes val w)) = w_vdev w \/
  w_vdev (snd (vdev_pt_cfgwrite env offset bytes val w))
  = committed_vdev (w_vdev w) offset val.
Proof.
  destruct (misaligned offset bytes) eqn:Ha.
  { left. unfold vdev_pt_cfgwrite. now rewrite Ha. }
  destruct (bar_access offset) eqn:Hb.
  - destruct (Z.eq_dec
                (decoded_base
                   (bar_size (bar_at (bar (w_vdev w)) (bar_index offset))) val)
                (bar_base (bar_at (bar (w_vdev w)) (bar_index offset))))
      as [Hsame | Hne].
    + left.
      destruct (noop_write_run env w offset bytes val Ha Hb Hsame)
        as [Hrun _].
      now rewrite Hrun.
    + right.
      destruct (cfgwrite_calls_changed env offset bytes val w Ha Hb Hne)
        as (dr & _ & Hvdev & _).
      exact Hvdev.
  - left. unfold vdev_pt_cfgwrite. rewrite Ha, Hb.
    unfold bind, get_vdev, ret.
    destruct (pdev_write_frame (pdev (w_vdev w)) offset bytes val)
      as (d & Hrun).
    rewrite Hrun. reflexivity.
Qed.

(** One descriptor through a committed write: it is either as before or
    has the decoded base and its old size and type. *)
Lemma committed_descriptor (vdev : pci_vdev) (offset val i : Z) :
  let b := bar_at (bar vdev) i in
  let b' := bar_at (bar (committed_vdev vdev offset val)) i in
  b' = b \/
  b' = mk_pci_bar (decoded_base (bar_size b) val) (bar_size b) (bar_type b).
Proof.
  cbv zeta. unfold committed_vdev, set_bar_base.
  cbn [bar pci_vdev_write_cfg_u32].
  unfold bar_at.
  destruct (Nat.eq_dec (Z.to_nat i) (Z.to_nat (bar_index offset)))
    as [Heq | Hne].
  - rewrite <- Heq.
    destruct (bar vdev !! Z.to_nat i) as [old |] eqn:Hlk.
    + right.
      rewrite list_lookup_insert_eq by (now apply lookup_lt_Some in Hlk).
      reflexivity.
    + left. rewrite list_insert_ge by (now apply lookup_ge_None).
      now rewrite Hlk.
  - left. now rewrite list_lookup_insert_ne by auto.
Qed.

Lemma committed_descriptor_ok (vdev : pci_vdev) (offset val i : Z) :
  bar_ok (bar_at (bar vdev) i) ->
  bar_ok (bar_at (bar (committed_vdev vdev offset val)) i) /\
  bar_size (bar_at (bar (committed_vdev vdev offset val)) i)
  = bar_size (bar_at (bar vdev) i).
Proof.
  intros Hok.
  destruct (committed_descriptor vdev offset val i) as [-> | ->].
  - split; [exact Hok | reflexivity].
  - destruct Hok as ((k & Hk & Hsz) & _).
    split; [| reflexivity]. split; cbn [bar_size bar_base].
    + exists k. now split.
    + rewrite Hsz. now apply decoded_base_aligned.
Qed.

Lemma run_op_descriptor_ok env op w (i : Z) :
  bar_ok (bar_at (bar (w_vdev w)) i) ->
  bar_ok (bar_at (bar (w_vdev (snd (run_op env op w)))) i) /\
  bar_size (bar_at (bar (w_vdev (snd (run_op env op w)))) i)
  = bar_size (bar_at (bar (w_vdev w)) i).
Proof.
  intros Hok. destruct op as [offset bytes | offset bytes val].
  - unfold run_op, bind, ret.
    pose proof (cfgread_keeps_vdev env offset bytes w) as Hk.
    destruct (vdev_pt_cfgread env offset bytes w) as [v w1].
    cbn [snd] in *. rewrite Hk. now split.
  - unfold run_op, bind, ret.
    pose proof (cfgwrite_vdev env offset bytes val w) as Hk.
    destruct (vdev_pt_cfgwrite env offset bytes val w) as [v w1].
    cbn [snd] in *. destruct Hk as [-> | ->]; [now split |].
    now apply committed_descriptor_ok.
Qed.

(** C9.  Take any BAR descriptor of a device record whose size is a power
    of two and whose base is a multiple of the size (0 included),
    whatever the other descriptors of the record hold.  After any
    sequence of configuration reads and writes, with any offsets, widths
    and values and whatever the collaborators answer, that descriptor
    still has the same size, and its base is still a multiple of it. *)
Theorem base_stays_multiple_of_size
  (env : collaborators) (ops : list cfg_op) (w : world) (i : Z) :
  bar_ok (bar_at (bar (w_vdev w)) i) ->
  let b' := bar_at (bar (w_vdev (snd (run_ops env ops w)))) i in
  bar_ok b' /\
  bar_size b' = bar_size (bar_at (bar (w_vdev w)) i) /\
  (bar_size b' | bar_base b').
Proof.
  intros Hok. cbv zeta.
  assert (H : bar_ok (bar_at (bar (w_vdev (snd (run_ops env ops w)))) i) /\
              bar_size (bar_at (bar (w_vdev (snd (run_ops env ops w)))) i)
              = bar_size (bar_at (bar (w_vdev w)) i)).
  { revert w Hok. induction ops as [| op rest IH]; intros w Hok.
    - now split.
    - cbn [run_ops]. unfold bind.
      pose proof (run_op_descriptor_ok env op w i Hok) as (H1 & Hs1).
      destruct (run_op env op w) as [u w1]. cbn [snd] in H1, Hs1.
      destruct (IH w1 H1) as (H2 & Hs2).
      split; [exact H2 | now rewrite Hs2]. }
  destruct H as (H1 & H2).
  split; [exact H1 | split; [exact H2 | apply H1]].
Qed.

Lemma base_stays_multiple_of_size_witness :
  let w := sample_sparse_world in
  let ops := [CfgWrite 0x10 4 0xFFFFFFFF; CfgWrite 0x10 4 0x80001234;
              CfgRead 0x10 4; CfgWrite 0x15 1 0x12345678;
              CfgWrite 0x11 1 0x40000000] in
  let b' := bar_at (bar (w_vdev (snd (run_ops (sample_env 2 0 0 0) ops w))))
              0 in
  bar_ok b' /\
  bar_size b' = bar_size (bar_at (bar (w_vdev w)) 0) /\
  (bar_size b' | bar_base b').
Proof.
  apply (base_stays_multiple_of_size (sample_env 2 0 0 0)
           [CfgWrite 0x10 4 0xFFFFFFFF; CfgWrite 0x10 4 0x80001234;
            CfgRead 0x10 4; CfgWrite 0x15 1 0x12345678;
            CfgWrite 0x11 1 0x40000000]
           sample_sparse_world 0).
  split.
  - exists 16. split; [lia | reflexivity].
  - exists 0. reflexivity.
Defined.

(** * Further properties of the code *)

(** ** Address word of the port driver *)

Lemma lor_disjoint_add (a b n : Z) :
  0 <= n -> 0 <= b < 2 ^ n -> Z.lor (a * 2 ^ n) b = a * 2 ^ n + b.
Proof.
  intros Hn Hb. rewrite <- Z.add_lor_land.
  replace (Z.land (a * 2 ^ n) b) with 0; [lia |].
  symmetry. apply Z.bits_inj'. intros i Hi.
  rewrite Z.land_spec, Z.bits_0.
  destruct (Z.lt_ge_cases i n) as [Hlt | Hge].
  - rewrite Z.mul_pow2_bits_low by lia. reflexivity.
  - rewrite <- (Z.mod_small b (2 ^ n)) by lia.
    rewrite Z.mod_pow2_bits_high by lia. apply andb_false_r.
Qed.

Lemma calc_address_sum (bdf offset : Z) :
  0 <= bdf < 2 ^ 16 -> 0 <= offset < 2 ^ 8 ->
  pci_pdev_calc_address bdf offset = 2 ^ 31 + bdf * 2 ^ 8 + offset.
Proof.
  intros Hb Ho. unfold pci_pdev_calc_address, u32, PCI_CFG_ENABLE.
  rewrite Z.shiftl_mul_pow2 by lia.
  rewrite Z.mod_small by lia.
  rewrite Z.lor_assoc.
  rewrite (lor_disjoint_add bdf offset 8) by lia.
  rewrite Z.lor_comm.
  change 0x80000000 with (1 * 2 ^ 31).
  rewrite (lor_disjoint_add 1 (bdf * 2 ^ 8 + offset) 31) by lia.
  lia.
Qed.

(** X1.  For a 16-bit bus/device/function and an offset below 256, the
    address word is 0x80000000 + bdf * 256 + offset: it fits 32 bits, its
    enable bit 31 is set, and both fields are read back from it, the
    offset in bits 0-7 and the bus/device/function in bits 8-23. *)
Theorem calc_address_fields (bdf offset : Z) :
  0 <= bdf < 2 ^ 16 -> 0 <= offset < 2 ^ 8 ->
  let a := pci_pdev_calc_address bdf offset in
  a = 0x80000000 + bdf * 256 + offset /\
  0 <= a < 2 ^ 32 /\
  Z.testbit a 31 = true /\
  Z.land a 0xFF = offset /\
  Z.land (Z.shiftr a 8) 0xFFFF = bdf.
Proof.
  intros Hb Ho a. unfold a. rewrite calc_address_sum by assumption.
  change (2 ^ 31) with 0x80000000. change (2 ^ 8) with 256.
  split; [reflexivity | split; [lia | split; [| split]]].
  - apply Z.testbit_true; [lia |]. change (2 ^ 31) with 2147483648.
    replace ((2147483648 + bdf * 256 + offset) / 2147483648) with 1.
    + reflexivity.
    + apply Z.div_unique with (r := bdf * 256 + offset); lia.
  - change 0xFF with (Z.ones 8). rewrite Z.land_ones by lia.
    change (2 ^ 8) with 256.
    symmetry. apply Z.mod_unique with (q := 8388608 + bdf); lia.
  - rewrite Z.shiftr_div_pow2 by lia. change (2 ^ 8) with 256.
    replace ((2147483648 + bdf * 256 + offset) / 256) with (8388608 + bdf)
      by (apply Z.div_unique with (r := offset); lia).
    change 0xFFFF with (Z.ones 16). rewrite Z.land_ones by lia.
    symmetry. apply Z.mod_unique with (q := 128); lia.
Qed.

Lemma calc_address_fields_witness :
  let a := pci_pdev_calc_address 0x0310 0x04 in
  a = 0x80000000 + 0x0310 * 256 + 0x04 /\
  0 <= a < 2 ^ 32 /\
  Z.testbit a 31 = true /\
  Z.land a 0xFF = 0x04 /\
  Z.land (Z.shiftr a 8) 0xFFFF = 0x0310.
Proof.
  apply (calc_address_fields 0x0310 0x04); lia.
Defined.

(** ** Offsets and BAR indexes *)

(** X2.  An offset is routed to the BAR engine exactly when it lies in one
    of the six 4-byte registers, and then [bar_index] is the number of
    that register: for a register [i] below 6 and a byte [k] below 4,
    the offset PCIR_BAR(i) + k is a BAR access of index [i]; conversely a
    BAR access lies in the register its index names. *)
Theorem bar_index_of_register (offset : Z) :
  (forall i k, 0 <= i < PCI_BAR_COUNT -> 0 <= k < 4 ->
     bar_access (PCIR_BAR i + k) = true /\ bar_index (PCIR_BAR i + k) = i) /\
  (bar_access offset = true ->
   0 <= bar_index offset < PCI_BAR_COUNT /\
   PCIR_BAR (bar_index offset) <= offset < PCIR_BAR (bar_index offset) + 4).
Proof.
  split.
  - intros i k Hi Hk.
    unfold bar_access, bar_index, PCIR_BAR, PCIR_BARS, PCI_BAR_COUNT, u32 in *.
    split.
    + apply andb_true_iff. split; [apply Z.leb_le | apply Z.ltb_lt]; lia.
    + rewrite Z.mod_small by lia. rewrite Z.shiftr_div_pow2 by lia.
      change (2 ^ 2) with 4.
      symmetry. apply Z.div_unique with (r := k); lia.
  - intros Hacc. split; [now apply bar_index_range |].
    unfold bar_access, bar_index, PCIR_BAR, PCIR_BARS, PCI_BAR_COUNT, u32 in *.
    apply andb_true_iff in Hacc as [H1 H2].
    apply Z.leb_le in H1. apply Z.ltb_lt in H2.
    rewrite Z.mod_small by lia. rewrite Z.shiftr_div_pow2 by lia.
    change (2 ^ 2) with 4.
    pose proof (Z.div_mod (offset - (16 + 0 * 4)) 4 ltac:(lia)) as Hd.
    pose proof (Z.mod_pos_bound (offset - (16 + 0 * 4)) 4 ltac:(lia)) as Hm.
    lia.
Qed.

(** ** Validation of the BAR types *)

(** X3.  [vdev_pt_init_validate] answers 0 exactly when the six BAR slots
    all have type MEM32, and -EINVAL in every other case: it has no third
    answer. *)
Theorem validate_iff_all_mem32 (vdev : pci_vdev) :
  (vdev_pt_init_validate vdev = 0 <->
   forall i, 0 <= i < PCI_BAR_COUNT ->
     bar_type (bar_at (bar vdev) i) = PCIM_BAR_MEM_32) /\
  (vdev_pt_init_validate vdev = 0 \/ vdev_pt_init_validate vdev = - EINVAL).
Proof.
  assert (Hdec : (forall i, 0 <= i < PCI_BAR_COUNT ->
                    bar_type (bar_at (bar vdev) i) = PCIM_BAR_MEM_32) \/
                 exists i, 0 <= i < PCI_BAR_COUNT /\
                    bar_type (bar_at (bar vdev) i) <> PCIM_BAR_MEM_32).
  { unfold PCI_BAR_COUNT.
    destruct (Z.eq_dec (bar_type (bar_at (bar vdev) 0)) PCIM_BAR_MEM_32);
      [| right; exists 0; split; [lia | assumption]].
    destruct (Z.eq_dec (bar_type (bar_at (bar vdev) 1)) PCIM_BAR_MEM_32);
      [| right; exists 1; split; [lia | assumption]].
    destruct (Z.eq_dec (bar_type (bar_at (bar vdev) 2)) PCIM_BAR_MEM_32);
      [| right; exists 2; split; [lia | assumption]].
    destruct (Z.eq_dec (bar_type (bar_at (bar vdev) 3)) PCIM_BAR_MEM_32);
      [| right; exists 3; split; [lia | assumption]].
    destruct (Z.eq_dec (bar_type (bar_at (bar vdev) 4)) PCIM_BAR_MEM_32);
      [| right; exists 4; split; [lia | assumption]].
    destruct (Z.eq_dec (bar_type (bar_at (bar vdev) 5)) PCIM_BAR_MEM_32);
      [| right; exists 5; split; [lia | assumption]].
    left. intros i Hi.
    assert (Hc : i = 0 \/ i = 1 \/ i = 2 \/ i = 3 \/ i = 4 \/ i = 5) by lia.
    destruct Hc as [-> | [-> | [-> | [-> | [-> | ->]]]]]; assumption. }
  assert (Hgood : (forall i, 0 <= i < PCI_BAR_COUNT ->
                     bar_type (bar_at (bar vdev) i) = PCIM_BAR_MEM_32) ->
                  vdev_pt_init_validate vdev = 0).
  { intros Hall. apply validate_from_good. intros i Hi. apply Hall.
    unfold PCI_BAR_COUNT in *. simpl in Hi. lia. }
  assert (Hbad : (exists i, 0 <= i < PCI_BAR_COUNT /\
                     bar_type (bar_at (bar vdev) i) <> PCIM_BAR_MEM_32) ->
                 vdev_pt_init_validate vdev = - EINVAL).
  { intros (i & Hi & Hne). apply (validate_from_bad _ _ 0 i); [| exact Hne].
    unfold PCI_BAR_COUNT in *. simpl. lia. }
  split; [split |].
  - intros Hz. destruct Hdec as [Hall | Hex]; [exact Hall |].
    rewrite (Hbad Hex) in Hz. discriminate.
  - exact Hgood.
  - destruct Hdec as [Hall | Hex]; [left; auto | right; auto].
Qed.

(** ** Protocol of the port driver *)

Lemma land_3_range (offset : Z) : 0 <= Z.land offset 3 <= 3.
Proof.
  pose proof (land_low_bits offset 2 ltac:(lia)) as H.
  change (2 ^ 2 - 1) with 3 in H. rewrite H.
  pose proof (Z.mod_pos_bound offset (2 ^ 2) ltac:(lia)). lia.
Qed.

Lemma land_2_cases (offset : Z) : Z.land offset 2 = 0 \/ Z.land offset 2 = 2.
Proof.
  replace (Z.land offset 2) with (Z.land (Z.land offset 3) 2)
    by (rewrite <- Z.land_assoc; reflexivity).
  pose proof (land_3_range offset) as H.
  assert (Hc : Z.land offset 3 = 0 \/ Z.land offset 3 = 1 \/
               Z.land offset 3 = 2 \/ Z.land offset 3 = 3) by lia.
  destruct Hc as [-> | [-> | [-> | ->]]]; cbn; auto.
Qed.

Lemma data_port_window (offset bytes : Z) :
  PCI_CONFIG_DATA <= data_port offset bytes /\
  data_port offset bytes + port_width bytes <= PCI_CONFIG_DATA + 4.
Proof.
  unfold data_port, port_width, PCI_CONFIG_DATA.
  destruct (bytes =? 1); [| destruct (bytes =? 2)].
  - pose proof (land_3_range offset). lia.
  - destruct (land_2_cases offset) as [-> | ->]; lia.
  - lia.
Qed.

Lemma pdev_read_calls env pd offset bytes w :
  exists v,
    0 <= v < 2 ^ (8 * port_width bytes) /\
    pci_pdev_read_cfg env pd offset bytes w
    = (v, world_after w
            [EvSpinlockObtain;
             EvPioWrite (pci_pdev_calc_address (bdf pd) offset)
               PCI_CONFIG_ADDR 4;
             EvPioRead (data_port offset bytes) (port_width bytes) v;
             EvSpinlockRelease]).
Proof.
  unfold pci_pdev_read_cfg, data_port, port_width.
  destruct (bytes =? 1); [| destruct (bytes =? 2)];
    pt_unfold; cbn -[Z.pow]; rewrite <- !app_assoc; cbn -[Z.pow];
    (eexists; split; [| reflexivity]); apply Z.mod_pos_bound; lia.
Qed.

Lemma pdev_write_calls pd offset bytes val w :
  pci_pdev_write_cfg pd offset bytes val w
  = (tt, world_after w
           [EvSpinlockObtain;
            EvPioWrite (pci_pdev_calc_address (bdf pd) offset)
              PCI_CONFIG_ADDR 4;
            EvPioWrite (val mod 2 ^ (8 * port_width bytes))
              (data_port offset bytes) (port_width bytes);
            EvSpinlockRelease]).
Proof.
  unfold pci_pdev_write_cfg, data_port, port_width.
  destruct (bytes =? 1); [| destruct (bytes =? 2)];
    pt_unfold; cbn -[Z.pow Z.modulo]; rewrite <- !app_assoc; reflexivity.
Qed.

(** X4.  A read through the port driver, for any device, offset, width
    and state, makes exactly four calls: it takes the lock, writes the
    address word to the address port, reads the data port once, and
    releases the lock.  The data access stays inside the four bytes of the
    data port, the value returned is the one read and fits the width
    used (1, 2, or 4 for any other request), and device and vm are left
    alone. *)
Theorem pdev_read_protocol
  (env : collaborators) (pd : pci_pdev) (offset bytes : Z) (w : world) :
  let r := pci_pdev_read_cfg env pd offset bytes w in
  calls_of (pci_pdev_read_cfg env pd offset bytes) w
  = [EvSpinlockObtain;
     EvPioWrite (pci_pdev_calc_address (bdf pd) offset) PCI_CONFIG_ADDR 4;
     EvPioRead (data_port offset bytes) (port_width bytes) (fst r);
     EvSpinlockRelease] /\
  0 <= fst r < 2 ^ (8 * port_width bytes) /\
  PCI_CONFIG_DATA <= data_port offset bytes /\
  data_port offset bytes + port_width bytes <= PCI_CONFIG_DATA + 4 /\
  w_vdev (snd r) = w_vdev w /\ w_vm (snd r) = w_vm w.
Proof.
  intros r. destruct (pdev_read_calls env pd offset bytes w) as (v & Hv & Hrun).
  unfold r. rewrite (calls_of_world_after _ w _ ltac:(rewrite Hrun; reflexivity)).
  rewrite Hrun. cbn [fst snd].
  pose proof (data_port_window offset bytes) as [H1 H2].
  repeat split; try assumption; apply Hv.
Qed.

(** X5.  A write through the port driver makes exactly four calls: it
    takes the lock, writes the address word to the address port, writes
    the value, cut to the width used, to the data port once, and releases
    the lock; the data access stays inside the four bytes of the data
    port, and device and vm are left alone. *)
Theorem pdev_write_protocol
  (pd : pci_pdev) (offset bytes val : Z) (w : world) :
  let r := pci_pdev_write_cfg pd offset bytes val w in
  calls_of (pci_pdev_write_cfg pd offset bytes val) w
  = [EvSpinlockObtain;
     EvPioWrite (pci_pdev_calc_address (bdf pd) offset) PCI_CONFIG_ADDR 4;
     EvPioWrite (val mod 2 ^ (8 * port_width bytes))
       (data_port offset bytes) (port_width bytes);
     EvSpinlockRelease] /\
  PCI_CONFIG_DATA <= data_port offset bytes /\
  data_port offset bytes + port_width bytes <= PCI_CONFIG_DATA + 4 /\
  w_vdev (snd r) = w_vdev w /\ w_vm (snd r) = w_vm w.
Proof.
  intros r. pose proof (pdev_write_calls pd offset bytes val w) as Hrun.
  unfold r. rewrite (calls_of_world_after _ w _ ltac:(rewrite Hrun; reflexivity)).
  rewrite Hrun. cbn [fst snd].
  pose proof (data_port_window offset bytes) as [H1 H2].
  repeat split; assumption.
Qed.

(** ** Runs of init and deinit *)

Lemma init_run_invalid env w :
  vdev_pt_init_validate (w_vdev w) <> 0 ->
  vdev_pt_init env w
  = (vdev_pt_init_validate (w_vdev w),
     world_after w [EvPrErr "virtual bar can only be of type PCIM_BAR_MEM_32!"]).
Proof.
  intros Hv. unfold vdev_pt_init. unfold bind at 1. unfold get_vdev at 1.
  apply Z.eqb_neq in Hv. rewrite Hv. reflexivity.
Qed.

Lemma init_run_existing_domain env w :
  vdev_pt_init_validate (w_vdev w) = 0 ->
  iommu (w_vm w) <> 0 ->
  let bus := PCI_BUS (bdf (pdev (w_vdev w))) in
  let devfun := LOBYTE (bdf (pdev (w_vdev w))) in
  let e := assign_iommu_device env (w_trace w) (iommu (w_vm w)) bus devfun in
  vdev_pt_init env w
  = (e, mk_world
          (vdev_pt_init_bar_registers_from (w_vdev w) 0
             (Z.to_nat PCI_BAR_COUNT))
          (w_vm w)
          (w_trace w ++ [EvAssignIommuDevice (iommu (w_vm w)) bus devfun e])).
Proof.
  intros Hv Hi. cbv zeta.
  unfold vdev_pt_init, vdev_pt_init_bar_registers.
  unfold bind at 1. unfold get_vdev at 1. rewrite Hv. cbn [Z.eqb negb].
  unfold bind at 1. unfold get_vm at 1.
  apply Z.eqb_neq in Hi. rewrite Hi. pt_unfold. cbn. reflexivity.
Qed.

Lemma init_run_new_domain env w :
  vdev_pt_init_validate (w_vdev w) = 0 ->
  iommu (w_vm w) = 0 ->
  let bus := PCI_BUS (bdf (pdev (w_vdev w))) in
  let devfun := LOBYTE (bdf (pdev (w_vdev w))) in
  let id := vm_id (w_vm w) in
  let da := if nworld_eptp (w_vm w) =? 0
            then [EvAllocPagingStruct (alloc_paging_struct env (w_trace w))]
            else [] in
  let root := if nworld_eptp (w_vm w) =? 0
              then alloc_paging_struct env (w_trace w)
              else nworld_eptp (w_vm w) in
  let d := create_iommu_domain env (w_trace w ++ da) id (HVA2HPA root) 48 in
  let dc := da ++ [EvCreateIommuDomain id (HVA2HPA root) 48 d] in
  let e := assign_iommu_device env (w_trace w ++ dc) d bus devfun in
  vdev_pt_init env w
  = (e, mk_world
          (vdev_pt_init_bar_registers_from (w_vdev w) 0
             (Z.to_nat PCI_BAR_COUNT))
          (mk_vm id d root)
          (w_trace w ++ dc ++ [EvAssignIommuDevice d bus devfun e])).
Proof.
  intros Hv Hi. cbv zeta.
  unfold vdev_pt_init, vdev_pt_init_bar_registers.
  unfold bind at 1. unfold get_vdev at 1. rewrite Hv. cbn [Z.eqb negb].
  unfold bind at 1. unfold get_vm at 1.
  rewrite Hi. cbn [Z.eqb].
  destruct (nworld_eptp (w_vm w) =? 0) eqn:Ep.
  - pt_unfold. cbn. rewrite <- !app_assoc. cbn. reflexivity.
  - pt_unfold. cbn. rewrite ?app_nil_r.
    rewrite <- !app_assoc. cbn. reflexivity.
Qed.

Lemma deinit_run env w :
  let bus := PCI_BUS (bdf (pdev (w_vdev w))) in
  let devfun := LOBYTE (bdf (pdev (w_vdev w))) in
  let e := unassign_iommu_device env (w_trace w) (iommu (w_vm w)) bus devfun in
  vdev_pt_deinit env w
  = (e, world_after w [EvUnassignIommuDevice (iommu (w_vm w)) bus devfun e]).
Proof. reflexivity. Qed.

Lemma init_bar_registers_from_frame (left : nat) :
  forall vdev idx,
    0 <= idx ->
    let v' := vdev_pt_init_bar_registers_from vdev idx left in
    bar v' = bar vdev /\ pdev v' = pdev vdev /\
    length (cfgdata v') = length (cfgdata vdev) /\
    (forall j, 0 <= j -> j < 4 + idx \/ 4 + idx + Z.of_nat left <= j ->
       cfg_dword v' j = cfg_dword vdev j).
Proof.
  induction left as [| n IH]; intros vdev idx Hidx.
  - cbn. repeat split; reflexivity.
  - cbn [vdev_pt_init_bar_registers_from].
    set (v1 := pci_vdev_write_cfg_u32 vdev (PCIR_BAR idx)
                 (PCI_BAR (bar_base (bar_at (bar vdev) idx))
                          (bar_type (bar_at (bar vdev) idx)))).
    destruct (IH v1 (idx + 1) ltac:(lia)) as (Hbar & Hpdev & Hl & Hout).
    cbv zeta. rewrite Hbar, Hpdev, Hl.
    repeat split; try reflexivity.
    + unfold v1, pci_vdev_write_cfg_u32. cbn. apply length_insert.
    + intros j Hj Hrange. rewrite Hout by lia.
      unfold v1, cfg_dword, pci_vdev_write_cfg_u32. cbn [cfgdata].
      rewrite PCIR_BAR_dword by exact Hidx.
      rewrite list_lookup_insert_ne; [reflexivity |].
      intros Heq. apply Z2Nat.inj in Heq; lia.
Qed.

(** Writing the registers again from unchanged descriptors changes
    nothing. *)
Lemma init_bar_registers_from_again (left : nat) :
  forall vdev idx,
    0 <= idx ->
    (forall i, idx <= i < idx + Z.of_nat left ->
       cfgdata vdev !! Z.to_nat (4 + i)
       = Some (u32 (PCI_BAR (bar_base (bar_at (bar vdev) i))
                            (bar_type (bar_at (bar vdev) i))))) ->
    vdev_pt_init_bar_registers_from vdev idx left = vdev.
Proof.
  induction left as [| n IH]; intros vdev idx Hidx Hregs.
  - reflexivity.
  - cbn [vdev_pt_init_bar_registers_from].
    assert (Hsame : pci_vdev_write_cfg_u32 vdev (PCIR_BAR idx)
                      (PCI_BAR (bar_base (bar_at (bar vdev) idx))
                               (bar_type (bar_at (bar vdev) idx))) = vdev).
    { unfold pci_vdev_write_cfg_u32.
      rewrite PCIR_BAR_dword by exact Hidx.
      rewrite list_insert_id.
      - now destruct vdev.
      - apply Hregs. lia. }
    rewrite Hsame. apply IH; [lia |].
    intros i Hi. apply Hregs. lia.
Qed.

Lemma init_registers_lookup (vdev : pci_vdev) :
  (10 <= length (cfgdata vdev))%nat ->
  let v' := vdev_pt_init_bar_registers_from vdev 0 (Z.to_nat PCI_BAR_COUNT) in
  forall i, 0 <= i < 0 + Z.of_nat (Z.to_nat PCI_BAR_COUNT) ->
    cfgdata v' !! Z.to_nat (4 + i)
    = Some (u32 (PCI_BAR (bar_base (bar_at (bar v') i))
                         (bar_type (bar_at (bar v') i)))).
Proof.
  intros Hlen v' i Hi.
  destruct (init_bar_registers_from_spec (Z.to_nat PCI_BAR_COUNT) vdev 0)
    as (Hbar & _ & Hl & _ & Hregs).
  { lia. }
  { unfold PCI_BAR_COUNT. simpl. lia. }
  fold v' in Hbar, Hl, Hregs.
  specialize (Hregs i Hi). unfold cfg_dword in Hregs.
  rewrite Hbar.
  destruct (cfgdata v' !! Z.to_nat (4 + i)) as [x |] eqn:Hlk.
  - cbn in Hregs. now rewrite Hregs.
  - apply lookup_ge_None in Hlk. rewrite Hl in Hlk.
    unfold PCI_BAR_COUNT in Hi. simpl in Hi.
    assert (Z.to_nat (4 + i) < 10)%nat
      by (change 10%nat with (Z.to_nat 10); apply Z2Nat.inj_lt; lia).
    lia.
Qed.

(** X6.  When the validation passes and the vm already has an IOMMU
    domain, init allocates and creates nothing: its only call is the
    attach of the device's bus and device/function to that domain, it
    returns what the attach answered, and the vm is as before. *)
Theorem init_reuses_domain (env : collaborators) (w : world) :
  vdev_pt_init_validate (w_vdev w) = 0 ->
  iommu (w_vm w) <> 0 ->
  let r := vdev_pt_init env w in
  calls_of (vdev_pt_init env) w
  = [EvAssignIommuDevice (iommu (w_vm w))
       (PCI_BUS (bdf (pdev (w_vdev w)))) (LOBYTE (bdf (pdev (w_vdev w))))
       (fst r)] /\
  w_vm (snd r) = w_vm w.
Proof.
  intros Hv Hi r.
  pose proof (init_run_existing_domain env w Hv Hi) as Hrun.
  cbv zeta in Hrun. unfold r.
  rewrite (calls_of_app _ w _ ltac:(rewrite Hrun; reflexivity)).
  rewrite Hrun. split; reflexivity.
Qed.

Lemma init_reuses_domain_witness :
  let env := sample_env 2 0 0 7 in
  let w := set_vm (mk_vm 1 0x2000 0x1000) (sample_world 0 0) in
  let r := vdev_pt_init env w in
  calls_of (vdev_pt_init env) w
  = [EvAssignIommuDevice (iommu (w_vm w))
       (PCI_BUS (bdf (pdev (w_vdev w)))) (LOBYTE (bdf (pdev (w_vdev w))))
       (fst r)] /\
  w_vm (snd r) = w_vm w.
Proof.
  apply (init_reuses_domain (sample_env 2 0 0 7)
           (set_vm (mk_vm 1 0x2000 0x1000) (sample_world 0 0))).
  - reflexivity.
  - vm_compute. discriminate.
Defined.

(** X7.  When the validation passes and the vm has no IOMMU domain yet,
    init creates exactly one, for the vm's id, the physical address of
    the translation root and a width of 48 bits; the root is allocated
    first exactly when the vm has none, and kept otherwise.  The attach
    that follows goes to the domain just created, its answer is the
    result of init, and the vm records the domain and the root. *)
Theorem init_creates_domain_once (env : collaborators) (w : world) :
  vdev_pt_init_validate (w_vdev w) = 0 ->
  iommu (w_vm w) = 0 ->
  let r := vdev_pt_init env w in
  exists root d,
    calls_of (vdev_pt_init env) w
    = (if nworld_eptp (w_vm w) =? 0 then [EvAllocPagingStruct root] else [])
      ++ [EvCreateIommuDomain (vm_id (w_vm w)) (HVA2HPA root) 48 d;
          EvAssignIommuDevice d (PCI_BUS (bdf (pdev (w_vdev w))))
            (LOBYTE (bdf (pdev (w_vdev w)))) (fst r)] /\
    (nworld_eptp (w_vm w) <> 0 -> root = nworld_eptp (w_vm w)) /\
    w_vm (snd r) = mk_vm (vm_id (w_vm w)) d root.
Proof.
  intros Hv Hi r.
  pose proof (init_run_new_domain env w Hv Hi) as Hrun.
  cbv zeta in Hrun. unfold r.
  rewrite (calls_of_app _ w _ ltac:(rewrite Hrun; reflexivity)).
  rewrite Hrun. cbn [fst snd w_vm].
  destruct (nworld_eptp (w_vm w) =? 0) eqn:Ep.
  - eexists _, _. split; [| split].
    + rewrite <- app_assoc. reflexivity.
    + intros Hne. apply Z.eqb_eq in Ep. contradiction.
    + reflexivity.
  - eexists _, _. split; [| split].
    + rewrite <- app_assoc. reflexivity.
    + reflexivity.
    + reflexivity.
Qed.

Lemma init_creates_domain_once_witness :
  let env := sample_env 2 0 0 0 in
  let w := sample_world 0 0 in
  let r := vdev_pt_init env w in
  exists root d,
    calls_of (vdev_pt_init env) w
    = (if nworld_eptp (w_vm w) =? 0 then [EvAllocPagingStruct root] else [])
      ++ [EvCreateIommuDomain (vm_id (w_vm w)) (HVA2HPA root) 48 d;
          EvAssignIommuDevice d (PCI_BUS (bdf (pdev (w_vdev w))))
            (LOBYTE (bdf (pdev (w_vdev w)))) (fst r)] /\
    (nworld_eptp (w_vm w) <> 0 -> root = nworld_eptp (w_vm w)) /\
    w_vm (snd r) = mk_vm (vm_id (w_vm w)) d root.
Proof.
  apply (init_creates_domain_once (sample_env 2 0 0 0) (sample_world 0 0));
    reflexivity.
Defined.

Lemma validate_from_depends_on_bar (v1 v2 : pci_vdev) (left : nat) :
  bar v1 = bar v2 ->
  forall idx,
    vdev_pt_init_validate_from v1 idx left
    = vdev_pt_init_validate_from v2 idx left.
Proof.
  intros Hb. induction left as [| n IH]; intros idx.
  - reflexivity.
  - cbn [vdev_pt_init_validate_from]. rewrite Hb, IH. reflexivity.
Qed.

Lemma init_vdev_valid env w :
  vdev_pt_init_validate (w_vdev w) = 0 ->
  w_vdev (snd (vdev_pt_init env w))
  = vdev_pt_init_bar_registers_from (w_vdev w) 0 (Z.to_nat PCI_BAR_COUNT).
Proof.
  intros Hv. destruct (init_run_valid env w Hv) as (d & g' & e & Hrun & _).
  now rewrite Hrun.
Qed.

(** X8.  Init can be run again.  After an init that passed the validation
    and left the vm with a domain, a second init makes a single call, the
    attach to that same domain, and leaves the vm and the whole device,
    configuration-space image included, as the first init left them. *)
Theorem init_again_changes_nothing (env : collaborators) (w : world) :
  vdev_pt_init_validate (w_vdev w) = 0 ->
  length (cfgdata (w_vdev w)) = 64%nat ->
  let w1 := snd (vdev_pt_init env w) in
  iommu (w_vm w1) <> 0 ->
  let r2 := vdev_pt_init env w1 in
  w_vdev (snd r2) = w_vdev w1 /\
  w_vm (snd r2) = w_vm w1 /\
  calls_of (vdev_pt_init env) w1
  = [EvAssignIommuDevice (iommu (w_vm w1))
       (PCI_BUS (bdf (pdev (w_vdev w1)))) (LOBYTE (bdf (pdev (w_vdev w1))))
       (fst r2)].
Proof.
  intros Hv Hlen w1 Hdom r2.
  pose proof (init_vdev_valid env w Hv) as Hvdev. fold w1 in Hvdev.
  destruct (init_bar_registers_from_frame (Z.to_nat PCI_BAR_COUNT)
              (w_vdev w) 0 ltac:(lia)) as (Hbar & _ & Hl & _).
  rewrite <- Hvdev in Hbar, Hl.
  assert (Hv1 : vdev_pt_init_validate (w_vdev w1) = 0).
  { unfold vdev_pt_init_validate in *.
    now rewrite (validate_from_depends_on_bar _ _ _ Hbar). }
  assert (Hagain : vdev_pt_init_bar_registers_from (w_vdev w1) 0
                     (Z.to_nat PCI_BAR_COUNT) = w_vdev w1).
  { apply init_bar_registers_from_again; [lia |].
    rewrite Hvdev. apply init_registers_lookup. rewrite Hlen. lia. }
  pose proof (init_run_existing_domain env w1 Hv1 Hdom) as Hrun.
  cbv zeta in Hrun. rewrite Hagain in Hrun. unfold r2.
  rewrite (calls_of_app _ w1 _ ltac:(rewrite Hrun; reflexivity)).
  rewrite Hrun. repeat split; reflexivity.
Qed.

Lemma init_again_changes_nothing_witness :
  let env := sample_env 2 0 0 0 in
  let w1 := snd (vdev_pt_init env (sample_world 0x80000000 0)) in
  let r2 := vdev_pt_init env w1 in
  w_vdev (snd r2) = w_vdev w1 /\
  w_vm (snd r2) = w_vm w1 /\
  calls_of (vdev_pt_init env) w1
  = [EvAssignIommuDevice (iommu (w_vm w1))
       (PCI_BUS (bdf (pdev (w_vdev w1)))) (LOBYTE (bdf (pdev (w_vdev w1))))
       (fst r2)].
Proof.
  apply (init_again_changes_nothing (sample_env 2 0 0 0)
           (sample_world 0x80000000 0)).
  - reflexivity.
  - reflexivity.
  - vm_compute. discriminate.
Defined.

(** X9.  Deinit detaches what init attached.  After an init that passed
    the validation, deinit makes a single call, the detach of the same
    bus and device/function from the same domain the init attached them
    to, returns what the detach answered, and leaves device and vm as
    they were: the domain is not destroyed. *)
Theorem deinit_detaches_what_init_attached
  (env : collaborators) (w : world) :
  vdev_pt_init_validate (w_vdev w) = 0 ->
  let w1 := snd (vdev_pt_init env w) in
  let r := vdev_pt_deinit env w1 in
  exists dom bus devfun e,
    attach_calls (calls_of (vdev_pt_init env) w)
    = [EvAssignIommuDevice dom bus devfun e] /\
    calls_of (vdev_pt_deinit env) w1
    = [EvUnassignIommuDevice dom bus devfun (fst r)] /\
    w_vdev (snd r) = w_vdev w1 /\ w_vm (snd r) = w_vm w1.
Proof.
  intros Hv w1 r.
  destruct (init_run_valid env w Hv) as (d & g' & e & Hrun & Hatt).
  destruct (init_bar_registers_from_frame (Z.to_nat PCI_BAR_COUNT)
              (w_vdev w) 0 ltac:(lia)) as (_ & Hpdev & _).
  exists (iommu g'), (PCI_BUS (bdf (pdev (w_vdev w)))),
    (LOBYTE (bdf (pdev (w_vdev w)))), e.
  split; [| split; [| split]].
  - rewrite (calls_of_app _ w _ ltac:(rewrite Hrun; reflexivity)).
    unfold attach_calls in *. rewrite List.filter_app, Hatt. reflexivity.
  - unfold r. rewrite (calls_of_world_after _ w1 _
                         ltac:(rewrite deinit_run; reflexivity)).
    rewrite deinit_run. unfold w1. rewrite Hrun. cbn [fst snd w_vm w_vdev].
    rewrite Hpdev. reflexivity.
  - unfold r. now rewrite deinit_run.
  - unfold r. now rewrite deinit_run.
Qed.

Lemma deinit_detaches_what_init_attached_witness :
  let env := sample_env 2 0 0 0 in
  let w := sample_world 0 0 in
  let w1 := snd (vdev_pt_init env w) in
  let r := vdev_pt_deinit env w1 in
  exists dom bus devfun e,
    attach_calls (calls_of (vdev_pt_init env) w)
    = [EvAssignIommuDevice dom bus devfun e] /\
    calls_of (vdev_pt_deinit env) w1
    = [EvUnassignIommuDevice dom bus devfun (fst r)] /\
    w_vdev (snd r) = w_vdev w1 /\ w_vm (snd r) = w_vm w1.
Proof.
  apply (deinit_detaches_what_init_attached (sample_env 2 0 0 0)
           (sample_world 0 0)).
  reflexivity.
Defined.

(** X10.  Whatever its outcome, init leaves the BAR table, the physical
    device, the vm's id and the size of the configuration-space image as
    they were, and in the image it touches nothing but the six BAR
    registers, the dwords 4 to 9. *)
Theorem init_frame (env : collaborators) (w : world) :
  let w1 := snd (vdev_pt_init env w) in
  bar (w_vdev w1) = bar (w_vdev w) /\
  pdev (w_vdev w1) = pdev (w_vdev w) /\
  vm_id (w_vm w1) = vm_id (w_vm w) /\
  length (cfgdata (w_vdev w1)) = length (cfgdata (w_vdev w)) /\
  forall j, 0 <= j -> j < 4 \/ 10 <= j ->
    cfg_dword (w_vdev w1) j = cfg_dword (w_vdev w) j.
Proof.
  intros w1.
  destruct (Z.eq_dec (vdev_pt_init_validate (w_vdev w)) 0) as [Hv | Hv].
  - destruct (init_bar_registers_from_frame (Z.to_nat PCI_BAR_COUNT)
                (w_vdev w) 0 ltac:(lia)) as (Hbar & Hpdev & Hl & Hout).
    assert (Hid : vm_id (w_vm w1) = vm_id (w_vm w)).
    { unfold w1.
      destruct (Z.eq_dec (iommu (w_vm w)) 0) as [Hi | Hi].
      - pose proof (init_run_new_domain env w Hv Hi) as Hrun.
        cbv zeta in Hrun. now rewrite Hrun.
      - pose proof (init_run_existing_domain env w Hv Hi) as Hrun.
        cbv zeta in Hrun. now rewrite Hrun. }
    unfold w1 in *. rewrite (init_vdev_valid env w Hv).
    repeat split; assumption.
  - unfold w1. rewrite (init_run_invalid env w Hv).
    repeat split; reflexivity.
Qed.

(** ** Lock discipline of the port pair *)

Lemma locked_io_app (l1 l2 : list event) :
  forall held,
    locked_io held (l1 ++ l2)
    = match locked_io held l1 with
      | Some held' => locked_io held' l2
      | None => None
      end.
Proof.
  induction l1 as [| e l1 IH]; intros held.
  - reflexivity.
  - destruct e, held; cbn; auto.
Qed.

Lemma locked_io_no_port (l : list event) :
  port_driver_calls l = [] -> locked_io false l = Some false.
Proof.
  induction l as [| e l IH]; intros H.
  - reflexivity.
  - destruct e; cbn in *; try discriminate; auto.
Qed.

Lemma locked_io_free_app (l1 l2 : list event) :
  locked_io false l1 = Some false -> locked_io false l2 = Some false ->
  locked_io false (l1 ++ l2) = Some false.
Proof.
  intros H1 H2. now rewrite locked_io_app, H1.
Qed.

(** Every entry point extends the trace by calls that keep the lock
    discipline and end with the lock free. *)
Lemma pt_op_calls_locked env (op : pt_op) (w : world) :
  exists d,
    w_trace (snd (run_pt_op env op w)) = w_trace w ++ d /\
    locked_io false d = Some false.
Proof.
  destruct op as [| | offset bytes val | offset bytes]; cbn [run_pt_op].
  - destruct (Z.eq_dec (vdev_pt_init_validate (w_vdev w)) 0) as [Hv | Hv].
    + destruct (Z.eq_dec (iommu (w_vm w)) 0) as [Hi | Hi].
      * pose proof (init_run_new_domain env w Hv Hi) as Hrun.
        cbv zeta in Hrun. rewrite Hrun. eexists. split; [reflexivity |].
        destruct (nworld_eptp (w_vm w) =? 0); reflexivity.
      * pose proof (init_run_existing_domain env w Hv Hi) as Hrun.
        cbv zeta in Hrun. rewrite Hrun. eexists. split; reflexivity.
    + rewrite (init_run_invalid env w Hv). eexists. split; reflexivity.
  - rewrite deinit_run. eexists. split; reflexivity.
  - destruct (misaligned offset bytes) eqn:Ha.
    { exists []. unfold vdev_pt_cfgwrite. rewrite Ha. cbn.
      now rewrite app_nil_r. }
    destruct (bar_access offset) eqn:Hb.
    + destruct (Z.eq_dec
                  (decoded_base
                     (bar_size (bar_at (bar (w_vdev w)) (bar_index offset)))
                     val)
                  (bar_base (bar_at (bar (w_vdev w)) (bar_index offset))))
        as [Hsame | Hne].
      * destruct (noop_write_run env w offset bytes val Ha Hb Hsame)
          as [Hrun _].
        exists []. rewrite Hrun. cbn. now rewrite app_nil_r.
      * destruct (cfgwrite_bar_changed env offset bytes val w Hne)
          as (dr & Hrun & Hport & _).
        destruct (pdev_read_calls env (pdev (w_vdev w)) PCIR_COMMAND 2 w)
          as (v & _ & Hread).
        rewrite (calls_of_world_after _ w _
                   ltac:(rewrite Hread; reflexivity)) in Hrun.
        rewrite cfgwrite_bar_route by assumption. rewrite Hrun.
        eexists. split; [reflexivity |].
        apply locked_io_free_app; [reflexivity |].
        now apply locked_io_no_port.
    + unfold vdev_pt_cfgwrite. rewrite Ha, Hb. unfold bind, get_vdev, ret.
      rewrite pdev_write_calls. eexists. split; reflexivity.
  - unfold bind, ret.
    destruct (misaligned offset bytes) eqn:Ha.
    { exists []. unfold vdev_pt_cfgread. rewrite Ha. cbn.
      now rewrite app_nil_r. }
    destruct (bar_access offset) eqn:Hb.
    + exists []. unfold vdev_pt_cfgread. rewrite Ha, Hb. cbn.
      now rewrite app_nil_r.
    + unfold vdev_pt_cfgread. rewrite Ha, Hb. unfold bind, get_vdev, ret.
      destruct (pdev_read_calls env (pdev (w_vdev w)) offset bytes w)
        as (v & _ & Hread).
      rewrite Hread. eexists. split; reflexivity.
Qed.

(** X11.  Along any sequence of calls through the four entry points
    (init, deinit, cfgwrite, cfgread), with any arguments and whatever
    the collaborators answer, the port pair is used under the lock only:
    every port access happens between taking the lock and releasing it,
    the lock is never taken twice nor released when free, no translation,
    IOMMU or log call is made while it is held, and it is free at the
    end. *)
Theorem port_io_only_under_lock
  (env : collaborators) (ops : list pt_op) (w : world) :
  locked_io false (calls_of (run_pt_ops env ops) w) = Some false.
Proof.
  assert (H : exists d,
             w_trace (snd (run_pt_ops env ops w)) = w_trace w ++ d /\
             locked_io false d = Some false).
  { revert w. induction ops as [| op rest IH]; intros w.
    - exists []. cbn. now rewrite app_nil_r.
    - cbn [run_pt_ops]. unfold bind.
      destruct (pt_op_calls_locked env op w) as (d1 & Ht1 & Hl1).
      destruct (run_pt_op env op w) as [u w1]. cbn [snd] in Ht1.
      destruct (IH w1) as (d2 & Ht2 & Hl2).
      exists (d1 ++ d2). split.
      + rewrite Ht2, Ht1. now rewrite app_assoc.
      + now apply locked_io_free_app. }
  destruct H as (d & Ht & Hl).
  now rewrite (calls_of_app _ w d Ht).
Qed.

(** ** Results of the remap *)

(** The remap reports an error exactly when one of its calls failed. *)
Lemma remap_error_iff env idx new_base w :
  let r := vdev_pt_remap_bar env idx new_base w in
  let d := calls_of (vdev_pt_remap_bar env idx new_base) w in
  negb (fst r =? 0) = existsb call_failed d /\
  fst r = match last d with Some e => call_ret e | None => 0 end /\
  (d = [] \/ (exists e, d = [e]) \/
   exists e1 e2, d = [e1; e2] /\ call_failed e1 = false /\
                 (exists a b c r1, e1 = EvEptMrDel a b c r1) /\
                 (exists a b c f g r2, e2 = EvEptMrAdd a b c f g r2)).
Proof.
  cbv zeta.
  destruct (Z.eq_dec (bar_base (bar_at (bar (w_vdev w)) idx)) 0) as [Hb | Hb].
  - destruct (Z.eq_dec new_base 0) as [-> | Hn].
    + pose proof (remap_unmapped_to_zero env idx w Hb) as Hrun.
      rewrite (calls_of_same _ w ltac:(rewrite Hrun; reflexivity)).
      rewrite Hrun. repeat split; auto.
    + pose proof (remap_unmapped env idx new_base w Hb Hn) as Hrun.
      cbv zeta in Hrun.
      rewrite (calls_of_world_after _ w _ ltac:(rewrite Hrun; reflexivity)).
      rewrite Hrun. cbn. rewrite orb_false_r.
      repeat split; eauto.
  - pose proof (remap_mapped env idx new_base w Hb) as Hrun.
    cbv zeta in Hrun.
    destruct (ept_mr_del env (w_trace w) (nworld_eptp (w_vm w))
                (bar_base (bar_at (bar (w_vdev w)) idx))
                (bar_size (bar_at (bar (w_vdev w)) idx)) =? 0) eqn:Ed;
      cbn [negb] in Hrun.
    + destruct (new_base =? 0) eqn:En; cbn [negb] in Hrun.
      * rewrite (calls_of_world_after _ w _
                   ltac:(rewrite Hrun; reflexivity)).
        rewrite Hrun. cbn. rewrite Ed. repeat split; eauto.
      * rewrite (calls_of_world_after _ w _
                   ltac:(rewrite Hrun; reflexivity)).
        rewrite Hrun. cbn. rewrite Ed. cbn. rewrite orb_false_r.
        split; [reflexivity | split; [reflexivity |]].
        right; right. eexists _, _. split; [reflexivity |].
        split; [cbn; now rewrite Ed |]. split; eauto 10.
    + rewrite (calls_of_world_after _ w _ ltac:(rewrite Hrun; reflexivity)).
      rewrite Hrun. cbn. rewrite Ed. repeat split; eauto.
Qed.

(** X12.  [vdev_pt_remap_bar] makes translation calls only, at most two,
    and a removal is never made after an addition; a second call is made
    only after a successful removal.  Its result is the answer of the last
    call it made, or 0 when it made none, so it reports an error exactly
    when one of its calls failed.  Device and vm are left alone. *)
Theorem remap_reports_last_call
  (env : collaborators) (idx new_base : Z) (w : world) :
  let r := vdev_pt_remap_bar env idx new_base w in
  let d := calls_of (vdev_pt_remap_bar env idx new_base) w in
  translation_calls d = d /\
  (fst r <> 0 <-> existsb call_failed d = true) /\
  fst r = match last d with Some e => call_ret e | None => 0 end /\
  (d = [] \/ (exists e, d = [e]) \/
   exists e1 e2, d = [e1; e2] /\ call_failed e1 = false /\
                 (exists a b c r1, e1 = EvEptMrDel a b c r1) /\
                 (exists a b c f g r2, e2 = EvEptMrAdd a b c f g r2)) /\
  w_vdev (snd r) = w_vdev w /\ w_vm (snd r) = w_vm w.
Proof.
  intros r d.
  destruct (remap_error_iff env idx new_base w) as (Herr & Hlast & Hshape).
  destruct (remap_run env idx new_base w) as (d' & Hrun & Htr & _).
  assert (Hd : d = d').
  { unfold d. apply calls_of_world_after. now rewrite Hrun. }
  fold r d in Herr, Hlast, Hshape.
  split; [now rewrite Hd | split; [| split; [exact Hlast | split;
    [exact Hshape |]]]].
  - rewrite <- Herr. rewrite negb_true_iff. symmetry. apply Z.eqb_neq.
  - unfold r. rewrite Hrun. split; reflexivity.
Qed.

(** ** Calls of a BAR write *)

Lemma cfgwrite_bar_calls_exact env offset bytes val w :
  let idx := bar_index offset in
  let sz := bar_size (bar_at (bar (w_vdev w)) idx) in
  let dm := calls_of
              (pci_pdev_read_cfg env (pdev (w_vdev w)) PCIR_COMMAND 2) w in
  let w1 := world_after w dm in
  let rr := vdev_pt_remap_bar env idx (decoded_base sz val) w1 in
  decoded_base sz val <> bar_base (bar_at (bar (w_vdev w)) idx) ->
  snd (vdev_pt_cfgwrite_bar env offset bytes val w)
  = mk_world (committed_vdev (w_vdev w) offset val) (w_vm w)
      (w_trace w ++ dm ++
         if negb (fst (memen env w) =? 0) && negb (val =? 0xFFFFFFFF)
         then calls_of (vdev_pt_remap_bar env idx (decoded_base sz val)) w1
              ++ (if negb (fst rr =? 0)
                  then [EvPrErr "vdev_pt_remap_bar failed: %d"] else [])
         else []).
Proof.
  intros idx sz dm w1 rr H. unfold vdev_pt_cfgwrite_bar.
  unfold bind at 1. unfold get_vdev at 1.
  fold (bar_index offset). fold idx. fold sz.
  fold (bar_mask sz). fold (candidate_bar sz val).
  fold (decoded_base sz val).
  apply Z.eqb_neq in H. rewrite H.
  unfold bind at 1.
  pose proof (memen_run env w) as Hm. fold dm in Hm. fold w1 in Hm.
  set (m := fst (memen env w)) in *. rewrite Hm. clearbody m.
  change (u32 (Z.lnot 0)) with 0xFFFFFFFF.
  destruct (negb (m =? 0) && negb (val =? 0xFFFFFFFF)).
  - destruct (remap_run env idx (decoded_base sz val) w1)
      as (d & Hrun & _).
    assert (Hc : calls_of (vdev_pt_remap_bar env idx (decoded_base sz val))
                   w1 = d).
    { apply calls_of_world_after. now rewrite Hrun. }
    rewrite Hc. unfold bind at 1. unfold bind at 1. fold rr in Hrun |- *.
    rewrite Hrun. cbn [fst].
    destruct (negb (fst rr =? 0)).
    + pt_unfold. cbn. unfold committed_vdev. fold idx. fold sz.
      rewrite <- !app_assoc. reflexivity.
    + pt_unfold. cbn. unfold committed_vdev. fold idx. fold sz.
      rewrite <- !app_assoc. cbn. rewrite app_nil_r. reflexivity.
  - pt_unfold. cbn. unfold committed_vdev. fold idx. fold sz.
    rewrite app_nil_r. reflexivity.
Qed.

Lemma existsb_memen_calls env w (f : event -> bool) :
  (forall e, is_port_driver_call e = true -> f e = false) ->
  existsb f
    (calls_of (pci_pdev_read_cfg env (pdev (w_vdev w)) PCIR_COMMAND 2) w)
  = false.
Proof.
  intros Hf.
  destruct (pdev_read_calls env (pdev (w_vdev w)) PCIR_COMMAND 2 w)
    as (v & _ & Hread).
  rewrite (calls_of_world_after _ w _ ltac:(rewrite Hread; reflexivity)).
  cbn. rewrite !Hf by reflexivity. reflexivity.
Qed.

Lemma existsb_pr_err_translation (d : list event) :
  translation_calls d = d -> existsb is_pr_err d = false.
Proof.
  induction d as [| e d IH]; intros H; [reflexivity |].
  destruct e; cbn in *;
    try (apply IH; now injection H);
    exfalso;
    (assert (Hlen : length (List.filter is_translation_call d)
                    = S (length d)) by (now rewrite H));
    pose proof (List.filter_length_le is_translation_call d); lia.
Qed.

(** X13.  For an aligned write to a BAR register, the error of a remap is
    logged and nothing else is: the write makes the log call
    "vdev_pt_remap_bar failed" exactly when one of its translation calls
    answered an error. *)
Theorem remap_failure_is_logged
  (env : collaborators) (w : world) (offset bytes val : Z) :
  misaligned offset bytes = false ->
  bar_access offset = true ->
  let d := calls_of (vdev_pt_cfgwrite env offset bytes val) w in
  existsb is_pr_err d = existsb call_failed d.
Proof.
  intros Ha Hb d.
  destruct (Z.eq_dec
              (decoded_base
                 (bar_size (bar_at (bar (w_vdev w)) (bar_index offset))) val)
              (bar_base (bar_at (bar (w_vdev w)) (bar_index offset))))
    as [Hsame | Hne].
  - destruct (noop_write_run env w offset bytes val Ha Hb Hsame) as [_ Hc].
    unfold d. now rewrite Hc.
  - pose proof (cfgwrite_bar_calls_exact env offset bytes val w Hne) as Hrun.
    cbv zeta in Hrun.
    assert (Hd : d = calls_of (vdev_pt_cfgwrite_bar env offset bytes val) w).
    { unfold d, calls_of. now rewrite cfgwrite_bar_route. }
    rewrite Hd. rewrite (calls_of_app _ w _ ltac:(rewrite Hrun; reflexivity)).
    rewrite !existsb_app.
    rewrite !existsb_memen_calls by (intros e He; destruct e; easy).
    cbn [orb].
    destruct (negb (fst (memen env w) =? 0) && negb (val =? 0xFFFFFFFF));
      [| reflexivity].
    set (w1 := world_after w _).
    set (nb := decoded_base _ val).
    destruct (remap_error_iff env (bar_index offset) nb w1)
      as (Herr & _ & _).
    destruct (remap_run env (bar_index offset) nb w1) as (d' & Hr & Htr & _).
    assert (Hc : calls_of (vdev_pt_remap_bar env (bar_index offset) nb) w1
                 = d').
    { apply calls_of_world_after. now rewrite Hr. }
    rewrite Hc in *. rewrite !existsb_app.
    rewrite (existsb_pr_err_translation d' Htr). rewrite <- Herr.
    destruct (negb (fst (vdev_pt_remap_bar env (bar_index offset) nb w1)
                    =? 0)); reflexivity.
Qed.

Lemma remap_failure_is_logged_witness :
  let d := calls_of
             (vdev_pt_cfgwrite (sample_env 2 5 0 0) 0x10 4 0x80000000)
             (sample_world 0x90000000 0) in
  existsb is_pr_err d = existsb call_failed d.
Proof.
  apply (remap_failure_is_logged (sample_env 2 5 0 0)
           (sample_world 0x90000000 0) 0x10 4 0x80000000);
    vm_compute; reflexivity.
Defined.

(** ** Writes without a remap, first mapping *)

(** X14.  With memory decoding disabled in the physical command register,
    an aligned write to a BAR register that changes the base makes no
    translation call at all: its calls are those of the one driver read of
    the command register.  The write still returns 0 and commits the new
    base to the descriptor and the masked value to the image. *)
Theorem write_with_decoding_disabled
  (env : collaborators) (w : world) (offset bytes val : Z) :
  let idx := bar_index offset in
  let sz := bar_size (bar_at (bar (w_vdev w)) idx) in
  wf_vdev (w_vdev w) ->
  misaligned offset bytes = false -> bar_access offset = true ->
  fst (memen env w) = 0 ->
  decoded_base sz val <> bar_base (bar_at (bar (w_vdev w)) idx) ->
  let r := vdev_pt_cfgwrite env offset bytes val w in
  fst r = 0 /\
  calls_of (vdev_pt_cfgwrite env offset bytes val) w
  = calls_of (pci_pdev_read_cfg env (pdev (w_vdev w)) PCIR_COMMAND 2) w /\
  bar_base (bar_at (bar (w_vdev (snd r))) idx) = decoded_base sz val /\
  pci_vdev_read_cfg_u32 (w_vdev (snd r)) offset = candidate_bar sz val.
Proof.
  intros idx sz (Hlb & _ & Hlc) Ha Hb Hm Hne r.
  destruct (cfgwrite_calls_changed env offset bytes val w Ha Hb Hne)
    as (dr & Hcalls & Hvdev & _ & _ & Hmap).
  rewrite Hm in Hmap. cbn in Hmap. subst dr. rewrite app_nil_r in Hcalls.
  unfold r. rewrite Hvdev.
  split; [now rewrite cfgwrite_bar_route | split; [exact Hcalls | split]].
  - now apply committed_base.
  - now apply committed_dword.
Qed.

Lemma write_with_decoding_disabled_witness :
  let env := sample_env 0 0 0 0 in
  let w := sample_world 0 0 in
  let r := vdev_pt_cfgwrite env 0x10 4 0x80000000 w in
  fst r = 0 /\
  calls_of (vdev_pt_cfgwrite env 0x10 4 0x80000000) w
  = calls_of (pci_pdev_read_cfg env (pdev (w_vdev w)) PCIR_COMMAND 2) w /\
  bar_base (bar_at (bar (w_vdev (snd r))) (bar_index 0x10))
  = decoded_base (bar_size (bar_at (bar (w_vdev w)) (bar_index 0x10)))
      0x80000000 /\
  pci_vdev_read_cfg_u32 (w_vdev (snd r)) 0x10
  = candidate_bar (bar_size (bar_at (bar (w_vdev w)) (bar_index 0x10)))
      0x80000000.
Proof.
  apply (write_with_decoding_disabled (sample_env 0 0 0 0)
           (sample_world 0 0) 0x10 4 0x80000000).
  - apply sample_world_wf.
  - reflexivity.
  - reflexivity.
  - reflexivity.
  - vm_compute. discriminate.
Defined.

(** X15.  On a BAR that is not mapped (base 0), with memory decoding
    enabled, an aligned write of a value other than 0xFFFFFFFF that
    decodes to a base other than 0 removes nothing: its only translation
    call is one addition of (physical base, new base, size, RW|UNCACHED),
    for the BAR the offset names. *)
Theorem first_mapping_adds_only
  (env : collaborators) (w : world) (offset bytes val : Z) :
  let idx := bar_index offset in
  let b := bar_at (bar (w_vdev w)) idx in
  let B_new := decoded_base (bar_size b) val in
  misaligned offset bytes = false -> bar_access offset = true ->
  bar_base b = 0 -> memen_set env w -> val <> 0xFFFFFFFF -> B_new <> 0 ->
  exists r_add,
    translation_calls (calls_of (vdev_pt_cfgwrite env offset bytes val) w)
    = [EvEptMrAdd (nworld_eptp (w_vm w))
         (bar_base (bar_at (pdev_bar (pdev (w_vdev w))) idx))
         B_new (bar_size b) (Z.lor (Z.lor EPT_WR EPT_RD) EPT_UNCACHED)
         r_add].
Proof.
  intros idx b B_new Ha Hb Hbase Hmem Hval Hnew.
  assert (Hne : B_new <> bar_base b) by (rewrite Hbase; exact Hnew).
  destruct (cfgwrite_calls_changed env offset bytes val w Ha Hb Hne)
    as (dr & Hcalls & _ & _ & _ & Hmap).
  rewrite (do_map_true env w val Hmem Hval) in Hmap.
  set (dm := calls_of
               (pci_pdev_read_cfg env (pdev (w_vdev w)) PCIR_COMMAND 2) w)
    in *.
  pose proof (remap_unmapped env idx B_new (world_after w dm) Hbase Hnew)
    as Hrun.
  cbv zeta in Hrun. subst idx b B_new.
  eexists. rewrite Hcalls, translation_calls_app.
  unfold dm at 1. rewrite memen_calls_not_translation, Hmap.
  apply calls_of_world_after. rewrite Hrun. reflexivity.
Qed.

Lemma first_mapping_adds_only_witness :
  let env := sample_env 2 0 0 0 in
  let w := sample_world 0 0 in
  exists r_add,
    translation_calls (calls_of (vdev_pt_cfgwrite env 0x14 4 0xA0000000) w)
    = [EvEptMrAdd (nworld_eptp (w_vm w))
         (bar_base (bar_at (pdev_bar (pdev (w_vdev w))) (bar_index 0x14)))
         (decoded_base (bar_size (bar_at (bar (w_vdev w)) (bar_index 0x14)))
            0xA0000000)
         (bar_size (bar_at (bar (w_vdev w)) (bar_index 0x14)))
         (Z.lor (Z.lor EPT_WR EPT_RD) EPT_UNCACHED) r_add].
Proof.
  apply (first_mapping_adds_only (sample_env 2 0 0 0) (sample_world 0 0)
           0x14 4 0xA0000000).
  - reflexivity.
  - reflexivity.
  - reflexivity.
  - vm_compute. discriminate.
  - discriminate.
  - vm_compute. discriminate.
Defined.

(** ** Repeated writes *)

Lemma committed_size (vdev : pci_vdev) (offset val : Z) :
  length (bar vdev) = Z.to_nat PCI_BAR_COUNT ->
  bar_access offset = true ->
  bar_size (bar_at (bar (committed_vdev vdev offset val)) (bar_index offset))
  = bar_size (bar_at (bar vdev) (bar_index offset)).
Proof.
  intros Hlen Hacc. pose proof (bar_index_range offset Hacc) as Hr.
  unfold committed_vdev, set_bar_base. cbn.
  rewrite bar_at_insert_same; [reflexivity | lia |].
  rewrite Hlen. apply Z2Nat.inj_lt; lia.
Qed.

(** X16.  Writing a BAR register is idempotent: after an aligned write of
    a value to a BAR register, the same write again is a no-op; it
    returns 0, makes no call and leaves the whole world as the first
    write left it, whatever the collaborators answered the first time. *)
Theorem bar_write_twice_is_noop
  (env : collaborators) (w : world) (offset bytes val : Z) :
  wf_vdev (w_vdev w) ->
  misaligned offset bytes = false -> bar_access offset = true ->
  let w1 := snd (vdev_pt_cfgwrite env offset bytes val w) in
  vdev_pt_cfgwrite env offset bytes val w1 = (0, w1).
Proof.
  intros (Hlen & _) Ha Hb w1.
  assert (Hsame1 :
    decoded_base (bar_size (bar_at (bar (w_vdev w1)) (bar_index offset))) val
    = bar_base (bar_at (bar (w_vdev w1)) (bar_index offset))).
  { destruct (Z.eq_dec
                (decoded_base
                   (bar_size (bar_at (bar (w_vdev w)) (bar_index offset))) val)
                (bar_base (bar_at (bar (w_vdev w)) (bar_index offset))))
      as [Hsame | Hne].
    - destruct (noop_write_run env w offset bytes val Ha Hb Hsame)
        as [Hrun _].
      unfold w1. now rewrite Hrun.
    - destruct (cfgwrite_calls_changed env offset bytes val w Ha Hb Hne)
        as (dr & _ & Hvdev & _).
      unfold w1. rewrite Hvdev.
      rewrite committed_size, committed_base by assumption. reflexivity. }
  now destruct (noop_write_run env w1 offset bytes val Ha Hb Hsame1).
Qed.

Lemma bar_write_twice_is_noop_witness :
  let env := sample_env 2 5 0 0 in
  let w1 := snd (vdev_pt_cfgwrite env 0x10 4 0x80000000
                   (sample_world 0x90000000 0)) in
  vdev_pt_cfgwrite env 0x10 4 0x80000000 w1 = (0, w1).
Proof.
  apply (bar_write_twice_is_noop (sample_env 2 5 0 0)
           (sample_world 0x90000000 0) 0x10 4 0x80000000).
  - apply sample_world_wf.
  - reflexivity.
  - reflexivity.
Defined.

(** ** Status of the dispatcher *)

(** X17.  The status of a configuration access depends on the alignment
    alone: [vdev_pt_cfgread] and [vdev_pt_cfgwrite] return -EINVAL when
    (offset & (bytes - 1)) is not 0 and 0 in every other case, whatever
    the collaborators answer; in particular a failed remap is not
    reported to the caller of the write. *)
Theorem status_depends_on_alignment_only
  (env : collaborators) (w : world) (offset bytes val : Z) :
  snd (fst (vdev_pt_cfgread env offset bytes w))
  = (if misaligned offset bytes then - EINVAL else 0) /\
  fst (vdev_pt_cfgwrite env offset bytes val w)
  = (if misaligned offset bytes then - EINVAL else 0).
Proof.
  destruct (misaligned offset bytes) eqn:Ha.
  - unfold vdev_pt_cfgread, vdev_pt_cfgwrite. rewrite Ha. split; reflexivity.
  - split.
    + unfold vdev_pt_cfgread. rewrite Ha.
      destruct (bar_access offset); [reflexivity |].
      unfold bind, get_vdev, ret.
      now destruct (pci_pdev_read_cfg env (pdev (w_vdev w)) offset bytes w).
    + destruct (bar_access offset) eqn:Hb.
      * now rewrite cfgwrite_bar_route.
      * unfold vdev_pt_cfgwrite. rewrite Ha, Hb. unfold bind, get_vdev, ret.
        now destruct (pci_pdev_write_cfg (pdev (w_vdev w)) offset bytes val w).
Qed.

(** ** What a write leaves alone *)

Lemma cfgwrite_outcome env offset bytes val w :
  let w1 := snd (vdev_pt_cfgwrite env offset bytes val w) in
  w_vm w1 = w_vm w /\
  (w_vdev w1 = w_vdev w \/
   bar_access offset = true /\
   w_vdev w1 = committed_vdev (w_vdev w) offset val).
Proof.
  cbv zeta. destruct (misaligned offset bytes) eqn:Ha.
  { unfold vdev_pt_cfgwrite. rewrite Ha. cbn. auto. }
  destruct (bar_access offset) eqn:Hb.
  - destruct (Z.eq_dec
                (decoded_base
                   (bar_size (bar_at (bar (w_vdev w)) (bar_index offset))) val)
                (bar_base (bar_at (bar (w_vdev w)) (bar_index offset))))
      as [Hsame | Hne].
    + destruct (noop_write_run env w offset bytes val Ha Hb Hsame)
        as [Hrun _].
      rewrite Hrun. cbn. auto.
    + destruct (cfgwrite_calls_changed env offset bytes val w Ha Hb Hne)
        as (dr & _ & Hvdev & Hvm & _).
      auto.
  - unfold vdev_pt_cfgwrite. rewrite Ha, Hb. unfold bind, get_vdev, ret.
    rewrite pdev_write_calls. cbn. auto.
Qed.

Lemma bar_at_set_base_fields (bars : list pci_bar) (idx i b : Z) :
  let bars' := <[Z.to_nat idx :=
                   mk_pci_bar b (bar_size (bar_at bars idx))
                     (bar_type (bar_at bars idx))]> bars in
  bar_size (bar_at bars' i) = bar_size (bar_at bars i) /\
  bar_type (bar_at bars' i) = bar_type (bar_at bars i) /\
  (Z.to_nat i <> Z.to_nat idx -> bar_at bars' i = bar_at bars i).
Proof.
  cbv zeta. unfold bar_at.
  destruct (Nat.eq_dec (Z.to_nat i) (Z.to_nat idx)) as [-> | Hne].
  - destruct (bars !! Z.to_nat idx) as [old |] eqn:Hlk.
    + rewrite list_lookup_insert_eq by (now apply lookup_lt_Some in Hlk).
      cbn. repeat split; try reflexivity. intros H. now contradiction H.
    + rewrite list_insert_ge by (now apply lookup_ge_None).
      rewrite Hlk. repeat split; reflexivity.
  - rewrite list_lookup_insert_ne by auto. repeat split; reflexivity.
Qed.

Lemma shiftr_bar_offset (offset : Z) :
  bar_access offset = true -> Z.shiftr offset 2 = 4 + bar_index offset.
Proof.
  intros Hacc.
  unfold bar_access, bar_index, PCIR_BAR, PCIR_BARS, PCI_BAR_COUNT, u32 in *.
  apply andb_true_iff in Hacc as [H1 H2].
  apply Z.leb_le in H1. apply Z.ltb_lt in H2.
  rewrite Z.mod_small by lia. rewrite !Z.shiftr_div_pow2 by lia.
  change (2 ^ 2) with 4.
  replace offset with ((offset - (16 + 0 * 4)) + 4 * 4) at 1 by lia.
  rewrite Z.div_add by lia. lia.
Qed.

(** X18.  A configuration write, whatever its arguments and outcome,
    leaves alone the physical device, the vm, the number of BARs and of
    dwords of the image, the size and the type of every BAR, every BAR
    descriptor other than the one the offset names, and every dword of
    the image other than the one that contains the offset. *)
Theorem cfgwrite_frame
  (env : collaborators) (w : world) (offset bytes val : Z) :
  let v := w_vdev w in
  let v1 := w_vdev (snd (vdev_pt_cfgwrite env offset bytes val w)) in
  pdev v1 = pdev v /\
  w_vm (snd (vdev_pt_cfgwrite env offset bytes val w)) = w_vm w /\
  length (bar v1) = length (bar v) /\
  length (cfgdata v1) = length (cfgdata v) /\
  (forall i, bar_size (bar_at (bar v1) i) = bar_size (bar_at (bar v) i) /\
             bar_type (bar_at (bar v1) i) = bar_type (bar_at (bar v) i)) /\
  (forall i, 0 <= i -> i <> bar_index offset ->
     bar_at (bar v1) i = bar_at (bar v) i) /\
  (forall j, 0 <= j -> j <> Z.shiftr offset 2 ->
     cfg_dword v1 j = cfg_dword v j).
Proof.
  intros v v1.
  destruct (cfgwrite_outcome env offset bytes val w) as (Hvm & Hv).
  fold v1 in Hv. fold v in Hv.
  split; [| split; [exact Hvm |]].
  - destruct Hv as [-> | [_ ->]]; reflexivity.
  - destruct Hv as [-> | [Hacc ->]].
    + repeat split; reflexivity.
    + pose proof (bar_index_range offset Hacc) as Hr.
      pose proof (bar_dword_range offset Hacc) as Hd.
      unfold committed_vdev, set_bar_base, pci_vdev_write_cfg_u32.
      cbn [bar pdev cfgdata].
      split; [apply length_insert | split; [apply length_insert |]].
      split; [| split].
      * intros i.
        destruct (bar_at_set_base_fields (bar v) (bar_index offset) i
                    (decoded_base
                       (bar_size (bar_at (bar v) (bar_index offset))) val))
          as (Hs & Ht & _).
        split; assumption.
      * intros i Hi Hne.
        apply bar_at_set_base_fields.
        intros Heq. apply Hne. apply Z2Nat.inj in Heq; lia.
      * intros j Hj Hne. unfold cfg_dword. cbn [cfgdata].
        rewrite list_lookup_insert_ne; [reflexivity |].
        intros Heq. apply Hne. apply Z2Nat.inj in Heq; lia.
Qed.

(** ** Coherence of the descriptors and the image *)

Lemma committed_wf (vdev : pci_vdev) (offset val : Z) :
  wf_vdev vdev -> wf_vdev (committed_vdev vdev offset val).
Proof.
  intros (H1 & H2 & H3).
  unfold wf_vdev, committed_vdev, set_bar_base, pci_vdev_write_cfg_u32.
  cbn [bar pdev cfgdata]. rewrite !length_insert. auto.
Qed.

Lemma committed_coherent (vdev : pci_vdev) (offset val : Z) :
  wf_vdev vdev -> bar_access offset = true ->
  shadow_coherent vdev ->
  shadow_coherent (committed_vdev vdev offset val).
Proof.
  intros Hwf Hacc Hco i Hi.
  pose proof (bar_index_range offset Hacc) as Hr.
  destruct (Z.eq_dec i (bar_index offset)) as [-> | Hne].
  - destruct Hwf as (Hlb & _ & Hlc).
    rewrite committed_base by assumption.
    unfold pci_vdev_read_cfg_u32.
    rewrite PCIR_BAR_dword by lia.
    rewrite <- (shiftr_bar_offset offset Hacc).
    pose proof (committed_dword vdev offset val Hlc Hacc) as Hd.
    unfold pci_vdev_read_cfg_u32 in Hd. rewrite Hd. reflexivity.
  - specialize (Hco i Hi).
    unfold pci_vdev_read_cfg_u32 in *. rewrite PCIR_BAR_dword in * by lia.
    unfold committed_vdev, set_bar_base, pci_vdev_write_cfg_u32, cfg_dword
      in *.
    cbn [bar pdev cfgdata].
    rewrite list_lookup_insert_ne.
    + rewrite Hco. symmetry. f_equal. apply bar_at_set_base_fields.
      intros Heq. apply Hne. apply Z2Nat.inj in Heq; lia.
    + rewrite (shiftr_bar_offset offset Hacc).
      intros Heq. apply Hne. apply Z2Nat.inj in Heq; lia.
Qed.

Lemma run_op_coherent env op w :
  wf_vdev (w_vdev w) /\ shadow_coherent (w_vdev w) ->
  wf_vdev (w_vdev (snd (run_op env op w))) /\
  shadow_coherent (w_vdev (snd (run_op env op w))).
Proof.
  intros (Hwf & Hco). destruct op as [offset bytes | offset bytes val].
  - unfold run_op, bind, ret.
    pose proof (cfgread_keeps_vdev env offset bytes w) as Hk.
    destruct (vdev_pt_cfgread env offset bytes w) as [x w1].
    cbn [snd] in *. rewrite Hk. auto.
  - unfold run_op, bind, ret.
    destruct (cfgwrite_outcome env offset bytes val w) as (_ & Hv).
    destruct (vdev_pt_cfgwrite env offset bytes val w) as [x w1].
    cbn [snd] in *. destruct Hv as [-> | [Hacc ->]]; [auto |].
    split; [now apply committed_wf | now apply committed_coherent].
Qed.

(** X19.  The descriptors and the image stay coherent.  If every BAR
    descriptor's base is the base field of its register in the virtual
    configuration-space image, this still holds after any sequence of
    configuration reads and writes, with any arguments and whatever the
    collaborators answer, failed remaps included; the tables keep their
    sizes. *)
Theorem shadow_stays_coherent
  (env : collaborators) (ops : list cfg_op) (w : world) :
  wf_vdev (w_vdev w) -> shadow_coherent (w_vdev w) ->
  wf_vdev (w_vdev (snd (run_ops env ops w))) /\
  shadow_coherent (w_vdev (snd (run_ops env ops w))).
Proof.
  intros Hwf Hco.
  assert (H : wf_vdev (w_vdev w) /\ shadow_coherent (w_vdev w)) by auto.
  clear Hwf Hco. revert w H.
  induction ops as [| op rest IH]; intros w H.
  - exact H.
  - cbn [run_ops]. unfold bind.
    pose proof (run_op_coherent env op w H) as H1.
    destruct (run_op env op w) as [u w1]. cbn [snd] in H1.
    now apply IH.
Qed.

Lemma sample_world_coherent : shadow_coherent (w_vdev (sample_world 0 0)).
Proof.
  intros i Hi. unfold PCI_BAR_COUNT in Hi.
  assert (Hc : i = 0 \/ i = 1 \/ i = 2 \/ i = 3 \/ i = 4 \/ i = 5) by lia.
  destruct Hc as [-> | [-> | [-> | [-> | [-> | ->]]]]]; reflexivity.
Qed.

Lemma shadow_stays_coherent_witness :
  let env := sample_env 2 5 0 0 in
  let ops := [CfgWrite 0x10 4 0xFFFFFFFF; CfgWrite 0x10 4 0x80000000;
              CfgRead 0x10 4; CfgWrite 0x19 1 0x12345678] in
  wf_vdev (w_vdev (snd (run_ops env ops (sample_world 0 0)))) /\
  shadow_coherent (w_vdev (snd (run_ops env ops (sample_world 0 0)))).
Proof.
  apply (shadow_stays_coherent (sample_env 2 5 0 0)
           [CfgWrite 0x10 4 0xFFFFFFFF; CfgWrite 0x10 4 0x80000000;
            CfgRead 0x10 4; CfgWrite 0x19 1 0x12345678]
           (sample_world 0 0)).
  - apply sample_world_wf.
  - apply sample_world_coherent.
Defined.

(** ** Size discovery *)

Lemma bar_mask_pow2 (k : Z) :
  0 <= k < 32 -> bar_mask (2 ^ k) = 2 ^ 32 - 2 ^ k.
Proof.
  intros Hk. unfold bar_mask, u32.
  replace (Z.lnot (2 ^ k - 1)) with (- 2 ^ k) by (unfold Z.lnot; lia).
  assert (Hp : 0 < 2 ^ k <= 2 ^ 31).
  { split; [apply Z.pow_pos_nonneg; lia |].
    apply Z.pow_le_mono_r; lia. }
  symmetry. apply Z.mod_unique with (q := -1); lia.
Qed.

(** X20.  Size discovery works.  On a BAR whose size is a power of two
    below 2^32 and whose base is not already the base field of the size
    mask, after a 4-byte write of 0xFFFFFFFF to the register a 4-byte
    read of it returns 2^32 - size with status 0 and changes nothing,
    and the size is recovered from the value read as ~value + 1 in 32
    bits. *)
Theorem probe_reads_back_size_mask
  (env : collaborators) (w : world) (offset k : Z) :
  let idx := bar_index offset in
  wf_vdev (w_vdev w) ->
  misaligned offset 4 = false -> bar_access offset = true ->
  0 <= k < 32 ->
  bar_size (bar_at (bar (w_vdev w)) idx) = 2 ^ k ->
  bar_base (bar_at (bar (w_vdev w)) idx) <> PCI_BAR_BASE (2 ^ 32 - 2 ^ k) ->
  let w1 := snd (vdev_pt_cfgwrite env offset 4 0xFFFFFFFF w) in
  let rd := vdev_pt_cfgread env offset 4 w1 in
  rd = ((2 ^ 32 - 2 ^ k, 0), w1) /\
  u32 (Z.lnot (fst (fst rd))) + 1 = 2 ^ k.
Proof.
  intros idx (Hlb & _ & Hlc) Ha Hb Hk Hsz Hbase w1 rd.
  assert (Hne : decoded_base
                  (bar_size (bar_at (bar (w_vdev w)) (bar_index offset)))
                  0xFFFFFFFF
                <> bar_base (bar_at (bar (w_vdev w)) (bar_index offset))).
  { fold idx. rewrite decoded_base_probe, Hsz, bar_mask_pow2 by exact Hk.
    intros Heq. apply Hbase. now rewrite Heq. }
  destruct (cfgwrite_calls_changed env offset 4 0xFFFFFFFF w Ha Hb Hne)
    as (dr & _ & Hvdev & _).
  fold w1 in Hvdev.
  assert (Hrd : rd = ((2 ^ 32 - 2 ^ k, 0), w1)).
  { unfold rd, vdev_pt_cfgread. rewrite Ha, Hb. unfold bind, get_vdev, ret.
    rewrite Hvdev. unfold pci_vdev_read_cfg. cbn [Z.eqb].
    rewrite committed_dword by assumption.
    rewrite candidate_bar_eq. fold idx. rewrite Hsz.
    rewrite Z.land_comm. change 0xFFFFFFFF with (Z.ones 32).
    rewrite Z.land_ones by lia.
    rewrite Z.mod_small by apply bar_mask_range.
    now rewrite bar_mask_pow2. }
  split; [exact Hrd |].
  rewrite Hrd. cbn [fst]. unfold u32, Z.lnot.
  assert (Hp : 0 < 2 ^ k <= 2 ^ 31).
  { split; [apply Z.pow_pos_nonneg; lia |].
    apply Z.pow_le_mono_r; lia. }
  replace (Z.pred (- (2 ^ 32 - 2 ^ k))) with (2 ^ k - 1 + -1 * 2 ^ 32) by lia.
  rewrite Z.mod_add by lia. rewrite Z.mod_small by lia. lia.
Qed.

Lemma probe_reads_back_size_mask_witness :
  let env := sample_env 2 0 0 0 in
  let w := sample_world 0 0 in
  let w1 := snd (vdev_pt_cfgwrite env 0x10 4 0xFFFFFFFF w) in
  let rd := vdev_pt_cfgread env 0x10 4 w1 in
  rd = ((2 ^ 32 - 2 ^ 16, 0), w1) /\
  u32 (Z.lnot (fst (fst rd))) + 1 = 2 ^ 16.
Proof.
  apply (probe_reads_back_size_mask (sample_env 2 0 0 0) (sample_world 0 0)
           0x10 16).
  - apply sample_world_wf.
  - reflexivity.
  - reflexivity.
  - lia.
  - reflexivity.
  - vm_compute. discriminate.
Defined.

(** ** Coherence after init *)

Lemma bar_base_field_id (b : Z) :
  0 <= b < 2 ^ 32 -> b mod 16 = 0 -> PCI_BAR_BASE b = b.
Proof.
  intros Hb Hm. unfold PCI_BAR_BASE, PCIM_BAR_MEM_BASE.
  apply Z.bits_inj'. intros n Hn. rewrite Z.land_spec.
  destruct (Z.lt_ge_cases n 4) as [H4 | H4].
  - replace (Z.testbit b n) with false; [reflexivity |].
    change 16 with (2 ^ 4) in Hm.
    rewrite <- (Z.mod_pow2_bits_low b 4 n) by lia.
    rewrite Hm. now rewrite Z.bits_0.
  - destruct (Z.lt_ge_cases n 32) as [H32 | H32].
    + change 0xFFFFFFF0 with (Z.shiftl (Z.ones 28) 4).
      rewrite Z.shiftl_spec by lia.
      rewrite Z.ones_spec_low by lia. apply andb_true_r.
    + replace (Z.testbit b n) with false; [reflexivity |].
      rewrite <- (Z.mod_small b (2 ^ 32)) by lia.
      now rewrite Z.mod_pow2_bits_high by lia.
Qed.

(** X21.  Init makes the image coherent with the descriptors.  When the
    six BARs are MEM32 and every descriptor's base is a 32-bit value that
    is a multiple of 16, then after init, whether or not the attach
    failed, every BAR register of the image holds exactly the
    descriptor's base, and the base field of the register is the
    descriptor's base. *)
Theorem init_makes_shadow_coherent (env : collaborators) (w : world) :
  wf_vdev (w_vdev w) ->
  (forall i, 0 <= i < PCI_BAR_COUNT ->
     bar_type (bar_at (bar (w_vdev w)) i) = PCIM_BAR_MEM_32 /\
     0 <= bar_base (bar_at (bar (w_vdev w)) i) < 2 ^ 32 /\
     bar_base (bar_at (bar (w_vdev w)) i) mod 16 = 0) ->
  let v1 := w_vdev (snd (vdev_pt_init env w)) in
  wf_vdev v1 /\ shadow_coherent v1 /\
  forall i, 0 <= i < PCI_BAR_COUNT ->
    pci_vdev_read_cfg_u32 v1 (PCIR_BAR i) = bar_base (bar_at (bar v1) i).
Proof.
  intros (Hlb & Hlp & Hlc) Hall v1.
  assert (Hv : vdev_pt_init_validate (w_vdev w) = 0).
  { apply validate_from_good. intros i Hi. apply Hall.
    unfold PCI_BAR_COUNT in *. simpl in Hi. lia. }
  pose proof (init_vdev_valid env w Hv) as Hvdev. fold v1 in Hvdev.
  destruct (init_bar_registers_from_spec (Z.to_nat PCI_BAR_COUNT)
              (w_vdev w) 0) as (Hbar & Hpdev & Hl & _ & Hregs).
  { lia. }
  { rewrite Hlc. unfold PCI_BAR_COUNT. simpl. lia. }
  rewrite <- Hvdev in Hbar, Hpdev, Hl, Hregs.
  assert (Hreg : forall i, 0 <= i < PCI_BAR_COUNT ->
            pci_vdev_read_cfg_u32 v1 (PCIR_BAR i)
            = bar_base (bar_at (bar v1) i)).
  { intros i Hi. destruct (Hall i Hi) as (Ht & Hr & _).
    unfold pci_vdev_read_cfg_u32. rewrite PCIR_BAR_dword by lia.
    rewrite Hregs by (unfold PCI_BAR_COUNT in *; simpl; lia).
    rewrite Hbar, Ht. unfold PCI_BAR, PCIM_BAR_MEM_32, u32.
    rewrite Z.lor_0_r. apply Z.mod_small. exact Hr. }
  split; [| split; [| exact Hreg]].
  - unfold wf_vdev. rewrite Hbar, Hpdev, Hl. auto.
  - intros i Hi. rewrite (Hreg i Hi). rewrite Hbar.
    destruct (Hall i Hi) as (_ & Hr & Hm).
    now apply bar_base_field_id.
Qed.

Lemma init_makes_shadow_coherent_witness :
  let v1 := w_vdev (snd (vdev_pt_init (sample_env 2 0 0 (-1))
                           (sample_world 0x80000000 0))) in
  wf_vdev v1 /\ shadow_coherent v1 /\
  forall i, 0 <= i < PCI_BAR_COUNT ->
    pci_vdev_read_cfg_u32 v1 (PCIR_BAR i) = bar_base (bar_at (bar v1) i).
Proof.
  apply (init_makes_shadow_coherent (sample_env 2 0 0 (-1))
           (sample_world 0x80000000 0)).
  - apply sample_world_wf.
  - intros i Hi. unfold PCI_BAR_COUNT in Hi.
    assert (Hc : i = 0 \/ i = 1 \/ i = 2 \/ i = 3 \/ i = 4 \/ i = 5) by lia.
    destruct Hc as [-> | [-> | [-> | [-> | [-> | ->]]]]];
      (split; [reflexivity
              | split; [vm_compute; split; [discriminate | reflexivity]
                       | reflexivity]]).
Defined.
